(** * The tool hub of [evaluator/algorithms/tool_fetcher_algorithm.py]

    A shallow embedding of [ToolFetcherAlgorithm]: the clamp on [k], the
    substring scorer behind [_search_tools], the bookkeeping of the active
    tools in [_handle_search] and [_handle_call], the dispatcher [run] built
    by [_make_tool_hub], and the session life cycle ([set_up],
    [process_query], [tear_down]).

    Python strings are modelled over ASCII code points; a Python [int] is a
    [Z]; a [dict] keyed by tool name is a [gmap string _]; the instance
    attributes live in a record that every method threads explicitly,
    together with the calls the vector store has served, on which its
    answers may depend. A method returns a value or raises: the exceptions
    that the file lets through, those of [int()] and of [json.loads] among
    them, are part of the outcome. *)

From Stdlib Require Import ZArith Ascii String List Lia Bool.
From stdpp Require Import base option list sorting gmap strings.

Local Open Scope string_scope.
Local Open Scope Z_scope.

#[local] Set Warnings "-register-all".

(** ** Constants (lines 19-30) *)

Definition DEFAULT_SEARCH_K : Z := 8.
Definition DEFAULT_MAX_RESULT_CHARS : Z := 4000.
Definition MIN_K : Z := 1.
Definition MAX_K : Z := 50.
Definition NAME_MATCH_WEIGHT : Z := 2.
Definition DESC_MATCH_WEIGHT : Z := 1.

(** ** Python strings *)

(** The methods of [str] that the file uses. *)
Module Str.

(** [str.isspace] on ASCII: tab, line feed, vertical tab, form feed,
    carriage return, the four separators 0x1c-0x1f and the space. *)
Definition is_space (c : ascii) : bool :=
  let n := nat_of_ascii c in
  ((9 <=? n)%nat && (n <=? 13)%nat) || ((28 <=? n)%nat && (n <=? 32)%nat).

Definition is_upper (c : ascii) : bool :=
  let n := nat_of_ascii c in (65 <=? n)%nat && (n <=? 90)%nat.

Definition lower_char (c : ascii) : ascii :=
  if is_upper c then ascii_of_nat (nat_of_ascii c + 32) else c.

(** [s.lower()] *)
Fixpoint lower (s : string) : string :=
  match s with
  | EmptyString => EmptyString
  | String c s' => String (lower_char c) (lower s')
  end.

(** [s.lstrip()] *)
Fixpoint lstrip (s : string) : string :=
  match s with
  | EmptyString => EmptyString
  | String c s' => if is_space c then lstrip s' else s
  end.

(** [s.rstrip()]: a character is dropped when it is a space and nothing
    but spaces follows it. *)
Fixpoint rstrip (s : string) : string :=
  match s with
  | EmptyString => EmptyString
  | String c s' =>
      match rstrip s' with
      | EmptyString => if is_space c then EmptyString else String c EmptyString
      | r => String c r
      end
  end.

(** [s.strip()] *)
Definition strip (s : string) : string := rstrip (lstrip s).

(** [s.startswith(p)] *)
Fixpoint startswith (p s : string) : bool :=
  match p, s with
  | EmptyString, _ => true
  | String _ _, EmptyString => false
  | String a p', String b s' => if Ascii.eqb a b then startswith p' s' else false
  end.

(** [q in s]: [q] occurs in [s] as a contiguous substring. *)
Fixpoint contains (q s : string) : bool :=
  startswith q s ||
  match s with
  | EmptyString => false
  | String _ s' => contains q s'
  end.

(** Truth value of a string: [bool(s)]. *)
Definition truthy (s : string) : bool :=
  match s with EmptyString => false | String _ _ => true end.

(** [s[:n]] for a Python integer [n]: the first [n] characters when
    [0 <= n], all but the last [-n] characters when [n < 0]. *)
Fixpoint firstn (n : nat) (s : string) : string :=
  match n, s with
  | O, _ => EmptyString
  | S _, EmptyString => EmptyString
  | S n', String c s' => String c (firstn n' s')
  end.

Definition slice_to (n : Z) (s : string) : string :=
  if 0 <=? n then firstn (Z.to_nat n) s
  else firstn (String.length s - Z.to_nat (- n)) s.

End Str.

(** [l[:n]] for a Python list. *)
Definition py_slice_to {A : Type} (n : Z) (l : list A) : list A :=
  if 0 <=? n then take (Z.to_nat n) l
  else take (length l - Z.to_nat (- n)) l.

(** ** Exceptions *)

(** The exceptions that can leave the methods of the file. In Python
    [RecursionError] is a subclass of [RuntimeError]; it is kept apart from
    the [RuntimeError] that [process_query] raises itself, which is told
    by its message. *)
Inductive Exn : Type :=
  | RuntimeError (msg : string)
  | TypeError
  | AttributeError
  | ValueError
  | OverflowError
  | RecursionError.

Inductive Outcome (A : Type) : Type :=
  | Ret (a : A)
  | Raise (e : Exn).
Arguments Ret {A} a.
Arguments Raise {A} e.

Definition returned {A : Type} (o : Outcome A) : bool :=
  match o with Ret _ => true | Raise _ => false end.

(** ** The values [k] can hold *)

(** A Python [float]: not a number, an infinity, or the finite value
    [m * 2 ^ e]. *)
Inductive PyFloatValue : Type :=
  | FNan
  | FInf (negative : bool)
  | FFinite (m e : Z).

(** [k] is declared [Optional[int]]; [_clamp_k] also guards against values
    that [int()] rejects, so the model has, besides [None] and integers,
    strings (parsed as [int(str)] does), floats, and objects without an
    integer conversion, for which [int()] raises [TypeError]. *)
Inductive PyVal : Type :=
  | PyNone
  | PyInt (z : Z)
  | PyStr (s : string)
  | PyFloat (f : PyFloatValue)
  | PyObj.

(** The builtin [int]. *)
Module Builtins.

Definition is_digit (c : ascii) : bool :=
  let n := nat_of_ascii c in (48 <=? n)%nat && (n <=? 57)%nat.

Definition digit_value (c : ascii) : Z := Z.of_nat (nat_of_ascii c) - 48.

(** The white space [int()] skips around the digits of an ASCII string:
    tab, line feed, vertical tab, form feed, carriage return and the
    space. The separators 0x1c-0x1f, which [str.strip] removes, are not
    skipped. *)
Definition is_space (c : ascii) : bool :=
  let n := nat_of_ascii c in
  ((9 <=? n)%nat && (n <=? 13)%nat) || (n =? 32)%nat.

Fixpoint skip_spaces (s : string) : string :=
  match s with
  | EmptyString => EmptyString
  | String c s' => if is_space c then skip_spaces s' else s
  end.

Fixpoint all_spaces (s : string) : bool :=
  match s with
  | EmptyString => true
  | String c s' => is_space c && all_spaces s'
  end.

(** [sys.int_max_str_digits], at its default. *)
Definition MAX_STR_DIGITS : nat := 4300.

(** Decimal digits, single underscores allowed between two digits, white
    space allowed after the last digit; [count] is the number of digits
    read. More than [MAX_STR_DIGITS] digits are refused. *)
Fixpoint digits (acc : Z) (count : nat) (after_digit : bool) (s : string) : option Z :=
  match s with
  | EmptyString =>
      if after_digit && (count <=? MAX_STR_DIGITS)%nat then Some acc else None
  | String c s' =>
      if is_digit c then digits (10 * acc + digit_value c) (S count) true s'
      else if Ascii.eqb c "_"%char then
        (if after_digit then digits acc count false s' else None)
      else if after_digit && all_spaces s && (count <=? MAX_STR_DIGITS)%nat
      then Some acc
      else None
  end.

(** [int(s)] for a string: white space, an optional sign, the digits,
    white space. [None] stands for [ValueError]. *)
Definition of_string (s : string) : option Z :=
  match skip_spaces s with
  | String "+"%char r => digits 0 0 false r
  | String "-"%char r => Z.opp <$> digits 0 0 false r
  | r => digits 0 0 false r
  end.

(** [int(f)] for a float: the value cut towards zero; [ValueError] for
    not a number and [OverflowError] for an infinity. *)
Definition of_float (f : PyFloatValue) : Outcome Z :=
  match f with
  | FNan => Raise ValueError
  | FInf _ => Raise OverflowError
  | FFinite m e => Ret (if 0 <=? e then m * 2 ^ e else Z.quot m (2 ^ (- e)))
  end.

(** [int(v)] *)
Definition int (v : PyVal) : Outcome Z :=
  match v with
  | PyNone => Raise TypeError
  | PyInt z => Ret z
  | PyStr s => match of_string s with
               | Some z => Ret z
               | None => Raise ValueError
               end
  | PyFloat f => of_float f
  | PyObj => Raise TypeError
  end.

End Builtins.

(** ** [_clamp_k] (lines 92-98) *)

Definition _clamp_k (k : PyVal) (default : Z) : Outcome Z :=
  let value :=
    match k with
    | PyNone => Ret default
    | _ => match Builtins.int k with
           | Ret v => Ret v
           | Raise ValueError | Raise TypeError => Ret default
           | Raise e => Raise e
           end
    end in
  match value with
  | Ret value => Ret (Z.max MIN_K (Z.min value MAX_K))
  | Raise e => Raise e
  end.

(** ** JSON values, tools, settings *)

(** The values [json.dumps] serialises and [json.loads] returns. An object
    keeps its keys in insertion order, as a Python [dict] does. *)
Inductive Json : Type :=
  | JNull
  | JBool (b : bool)
  | JNum (z : Z)
  | JStr (s : string)
  | JList (items : list Json)
  | JObj (fields : list (string * Json)).

(** What [tool.invoke] receives: the parsed [tool_input], or the raw string
    when it is empty or is not JSON. *)
Inductive ToolInput : Type :=
  | InParsed (j : Json)
  | InRaw (s : string).

(** What [tool.invoke] returns: a [dict] or [list], serialised with
    [json.dumps]; or any other value, of which only [str(result)] is used. *)
Inductive PyResult : Type :=
  | ResStructured (j : Json)
  | ResOther (text : string).

(** Outcome of the [try] block of lines 172-177. [Failed msg] is an
    exception [e] with [str(e) = msg], raised by the invocation or by the
    serialisation of its result: both end in the same [except] clause. *)
Inductive InvokeOutcome : Type :=
  | Returned (result : PyResult)
  | Failed (msg : string).

(** A [BaseTool], as far as this file uses it. Tools do not touch the
    attributes of the algorithm, so [invoke] is a function of its input. *)
Record BaseTool : Type := mkTool {
  name : string;
  description : string;
  invoke : ToolInput -> InvokeOutcome
}.

(** The keys of [self._settings] that the dispatcher reads; [None] is a
    missing key. *)
Record Settings : Type := mkSettings {
  default_search_k : option Z;
  max_result_chars : option Z
}.

Definition get_default_settings : Settings :=
  {| default_search_k := Some DEFAULT_SEARCH_K;
     max_result_chars := Some DEFAULT_MAX_RESULT_CHARS |}.

(** The Milvus store, as [_search_tools] uses it:
    [similarity_search_with_score(query, k)] either raises ([None]) or
    returns documents, of which only [metadata.get("name")] is read. What
    it does at one call may differ from what it does at the next: the
    answer is a function of the calls made before, oldest first, and of
    the arguments of this one. *)
Definition VectorStore : Type :=
  list (string * Z) -> string -> Z -> option (list (option string)).

Inductive Embeddings : Type := EmbeddingsHandle.

(** ** The instance attributes *)

Record Session : Type := mkSession {
  _settings : Settings;
  _all_tools : option (list BaseTool);
  _tool_map : option (gmap string BaseTool);
  _active_tools : option (list BaseTool);
  _vector_store : option VectorStore;
  _embeddings : option Embeddings;
  (** the file named by [TOOL_LOG_PATH]; [None] when the variable is unset *)
  tool_log : option (list string);
  (** the calls the store has served, oldest first: the state of the
      store, kept beside the handle [_vector_store] *)
  store_queries : list (string * Z)
}.

Definition set_active_tools (a : option (list BaseTool)) (st : Session) : Session :=
  {| _settings := _settings st; _all_tools := _all_tools st;
     _tool_map := _tool_map st; _active_tools := a;
     _vector_store := _vector_store st; _embeddings := _embeddings st;
     tool_log := tool_log st; store_queries := store_queries st |}.

Definition set_tool_log (l : option (list string)) (st : Session) : Session :=
  {| _settings := _settings st; _all_tools := _all_tools st;
     _tool_map := _tool_map st; _active_tools := _active_tools st;
     _vector_store := _vector_store st; _embeddings := _embeddings st;
     tool_log := l; store_queries := store_queries st |}.

Definition set_store_queries (h : list (string * Z)) (st : Session) : Session :=
  {| _settings := _settings st; _all_tools := _all_tools st;
     _tool_map := _tool_map st; _active_tools := _active_tools st;
     _vector_store := _vector_store st; _embeddings := _embeddings st;
     tool_log := tool_log st; store_queries := h |}.

(** Names of the active tools: [[t.name for t in self._active_tools]]. *)
Definition active_names (st : Session) : option (list string) :=
  match _active_tools st with
  | Some active => Some (name <$> active)
  | None => None
  end.

(** ** [_search_tools] (lines 100-130) *)

Definition lexical_score (q : string) (tool : BaseTool) : Z :=
  let name := Str.lower (name tool) in
  let desc := Str.lower (description tool) in
  (if Str.contains q name then NAME_MATCH_WEIGHT else 0)
  + (if Str.contains q desc then DESC_MATCH_WEIGHT else 0).

(** The loop of lines 121-127. *)
Definition rank_loop (q : string) (all_tools : list BaseTool) : list (Z * BaseTool) :=
  fold_left
    (fun ranked tool =>
       let score := lexical_score q tool in
       if 0 <? score then (ranked ++ [(score, tool)])%list else ranked)
    all_tools [].

(** [ranked.sort(key=lambda x: x[0], reverse=True)]. Python's sort is
    stable, also with [reverse=True]: entries with equal keys keep their
    order. A stable sort is determined by that, whatever its algorithm; the
    model inserts each entry before the first one whose key is not larger. *)
Fixpoint insert_by_score {A : Type} (x : Z * A) (l : list (Z * A)) : list (Z * A) :=
  match l with
  | [] => [x]
  | y :: l' => if y.1 <=? x.1 then x :: y :: l' else y :: insert_by_score x l'
  end.

Definition sort_reverse {A : Type} (l : list (Z * A)) : list (Z * A) :=
  foldr insert_by_score [] l.

(** Lines 119-130, the substring search. *)
Definition substring_search (all_tools : list BaseTool) (query : string) (limit : Z)
  : list BaseTool :=
  let q := Str.lower (Str.strip query) in
  let ranked := sort_reverse (rank_loop q all_tools) in
  match snd <$> py_slice_to limit ranked with
  | [] => py_slice_to limit all_tools
  | top => top
  end.

(** Lines 106-117: [Some ordered] when the store answered and the tool map
    could be consulted, [None] when an exception was caught. *)
Definition vector_search (st : Session) (query : string) (limit : Z)
  : option (list BaseTool) :=
  match _vector_store st with
  | None => None
  | Some store =>
      match store (store_queries st) query limit with
      | None => None
      | Some [] => Some []
      | Some results =>
          match _tool_map st with
          | None => None
          | Some tool_map =>
              Some (omap (fun doc_name => doc_name ≫= (fun n => tool_map !! n)) results)
          end
      end
  end.

Definition _search_tools (st : Session) (query : string) (limit : Z) : list BaseTool :=
  match _all_tools st with
  | None | Some [] => []
  | Some all_tools =>
      match vector_search st query limit with
      | Some (t :: ordered) => t :: ordered
      | _ => substring_search all_tools query limit
      end
  end.

(** Line 108 is reached when the registry is not empty and there is a
    store. *)
Definition store_consulted (st : Session) : bool :=
  match _all_tools st, _vector_store st with
  | Some (_ :: _), Some _ => true
  | _, _ => false
  end.

(** What [_search_tools] leaves behind: the store has served one more
    call, when it was asked. *)
Definition record_query (query : string) (limit : Z) (st : Session) : Session :=
  if store_consulted st
  then set_store_queries (store_queries st ++ [(query, limit)]) st
  else st.

(** ** The tool map of [set_up] (line 55) *)

(** [{t.name: t for t in tools}]: a later tool replaces an earlier one
    of the same name. *)
Definition build_tool_map (tools : list BaseTool) : gmap string BaseTool :=
  fold_left (fun m t => <[name t := t]> m) tools ∅.

(** ** [json.loads] *)

(** The exceptions of [json.loads] that are no [JSONDecodeError]: the
    [ValueError] for an integer literal of more digits than the
    interpreter converts, and the [RecursionError] for arrays or objects
    nested too deeply. *)
Inductive LoadsError : Type :=
  | TooManyDigits
  | TooDeep.

Definition loads_exn (e : LoadsError) : Exn :=
  match e with
  | TooManyDigits => ValueError
  | TooDeep => RecursionError
  end.

(** What [json.loads] does with a string. *)
Inductive LoadsOutcome : Type :=
  | Loaded (j : Json)
  | JSONDecodeError
  | LoadsRaised (e : LoadsError).

(** ** Requests to the hub, and the agent that sends them *)

(** The arguments of [run] (lines 203-204). *)
Record Request : Type := mkRequest {
  action : string;
  query : string;
  k : PyVal;
  tool_name : string;
  tool_input : string
}.

(** Modelled from the spec: [_invoke_agent_on_query] and the agent built
    by [create_react_agent] are not in this file. The spec describes the
    agent loop as a sequence of calls of the hub, each decided from the
    replies so far, that ends with an answer: a tree whose nodes are
    requests and whose branches are indexed by the hub's reply. *)
Inductive Agent : Type :=
  | Answer (response : string)
  | Ask (r : Request) (next : string -> Agent).

(** ** [_build_vector_index] (lines 59-90) *)

Definition DEFAULT_EMBEDDING_MODEL : string := "all-MiniLM-L6-v2".
Definition DEFAULT_DROP_OLD_COLLECTION : bool := true.
Definition DEFAULT_COLLECTION_NAME : string := "tool_fetcher_tools_collection".
Definition MAX_EMBEDDING_TEXT_LENGTH : Z := 2048.
Definition DEFAULT_MILVUS_URI : string := "http://localhost:19530".

(** The keys of [self._settings] that [_build_vector_index] reads; [None]
    is a missing key. Of [drop_old_collection] only the truth value is
    used. *)
Record IndexSettings : Type := mkIndexSettings {
  embedding_model_id : option string;
  collection_name : option string;
  drop_old_collection : option bool
}.

(** A [Document], with the one metadata key the file sets. *)
Record Document : Type := mkDocument {
  page_content : string;
  metadata_name : string
}.

(** The document of one tool (lines 71-74). *)
Definition document_of (t : BaseTool) : Document :=
  {| page_content :=
       Str.slice_to MAX_EMBEDDING_TEXT_LENGTH
         ("name: " +:+ name t +:+ " | desc: " +:+ description t);
     metadata_name := name t |}.

(** The two constructors the method calls; [None] is an exception.
    [from_documents] receives the documents, the embeddings, the
    collection name, the URI and [drop_old]. *)
Record IndexBackend : Type := mkIndexBackend {
  HuggingFaceEmbeddings : string -> option Embeddings;
  from_documents :
    list Document -> Embeddings -> string -> string -> bool -> option VectorStore
}.

(** [os.getenv("MILVUS_URL") or "http://localhost:19530"] *)
Definition milvus_uri (MILVUS_URL : option string) : string :=
  match MILVUS_URL with
  | Some u => if Str.truthy u then u else DEFAULT_MILVUS_URI
  | None => DEFAULT_MILVUS_URI
  end.

(** The method: what it leaves in [_embeddings] ([None]: the attribute is
    not assigned) and in [_vector_store]. Every exception ends in the
    [except] clause of lines 88-90, which sets the store to [None]. *)
Definition _build_vector_index (backend : IndexBackend) (MILVUS_URL : option string)
    (settings : IndexSettings) (tools : list BaseTool)
  : option Embeddings * option VectorStore :=
  let embedding_model_id :=
    default DEFAULT_EMBEDDING_MODEL (embedding_model_id settings) in
  match HuggingFaceEmbeddings backend embedding_model_id with
  | None => (None, None)
  | Some embeddings =>
      let uri := milvus_uri MILVUS_URL in
      let collection := default DEFAULT_COLLECTION_NAME (collection_name settings) in
      let drop_old :=
        default DEFAULT_DROP_OLD_COLLECTION (drop_old_collection settings) in
      let docs := document_of <$> tools in
      (Some embeddings,
       from_documents backend docs embeddings collection uri drop_old)
  end.

(** The index keys of [get_default_settings] (lines 255-263). *)
Definition get_default_index_settings : IndexSettings :=
  {| embedding_model_id := Some DEFAULT_EMBEDDING_MODEL;
     collection_name := Some DEFAULT_COLLECTION_NAME;
     drop_old_collection := Some DEFAULT_DROP_OLD_COLLECTION |}.

(** [self._settings] replaced, the other attributes kept. *)
Definition with_settings (s : Settings) (st : Session) : Session :=
  {| _settings := s; _all_tools := _all_tools st;
     _tool_map := _tool_map st; _active_tools := _active_tools st;
     _vector_store := _vector_store st; _embeddings := _embeddings st;
     tool_log := tool_log st; store_queries := store_queries st |}.

(** ** A serialiser and a small registry to run the model on *)

Module Sample.

Definition quote : string := String "034"%char EmptyString.

(** Escapes the quote and the backslash, as [json.dumps] does; other
    characters are copied. *)
Fixpoint escape (s : string) : string :=
  match s with
  | EmptyString => EmptyString
  | String c s' =>
      if Ascii.eqb c "034"%char || Ascii.eqb c "092"%char
      then String "092"%char (String c (escape s'))
      else String c (escape s')
  end.

Definition join (sep : string) (l : list string) : string :=
  match l with
  | [] => ""
  | x :: l' => fold_left (fun acc y => acc +:+ sep +:+ y) l' x
  end.

(** Non-negative decimal numeral of [n]; [fuel] bounds the digits. *)
Fixpoint decimal (fuel : nat) (n : Z) : string :=
  match fuel with
  | O => ""
  | S fuel' =>
      let d := String (ascii_of_nat (Z.to_nat (48 + n mod 10))) "" in
      if n <? 10 then d else decimal fuel' (n / 10) +:+ d
  end.

Definition number (z : Z) : string :=
  if z <? 0 then "-" +:+ decimal (Z.to_nat (Z.log2 (- z)) + 1) (- z)
  else decimal (Z.to_nat (Z.log2 z) + 1) z.

(** [json.dumps] with its default separators. *)
Fixpoint dumps (j : Json) : string :=
  match j with
  | JNull => "null"
  | JBool b => if b then "true" else "false"
  | JNum z => number z
  | JStr s => quote +:+ escape s +:+ quote
  | JList items => "[" +:+ join ", " (map dumps items) +:+ "]"
  | JObj fields =>
      "{" +:+ join ", "
               (map (fun kv => quote +:+ escape kv.1 +:+ quote +:+ ": " +:+ dumps kv.2)
                    fields) +:+ "}"
  end.

(** A parser that accepts nothing: every [tool_input] reaches the tool
    as the raw string. *)
Definition loads_nothing (s : string) : LoadsOutcome := JSONDecodeError.

Fixpoint all_digits (s : string) : bool :=
  match s with
  | EmptyString => true
  | String c s' => Builtins.is_digit c && all_digits s'
  end.

(** A parser of integer literals, with the limit on their digits; it
    accepts nothing else. *)
Definition loads_numbers (s : string) : LoadsOutcome :=
  match s with
  | EmptyString => JSONDecodeError
  | String c s' =>
      if all_digits s then
        if Ascii.eqb c "0"%char && Str.truthy s' then JSONDecodeError
        else if (String.length s <=? Builtins.MAX_STR_DIGITS)%nat then
          match Builtins.digits 0 0 false s with
          | Some z => Loaded (JNum z)
          | None => JSONDecodeError
          end
        else LoadsRaised TooManyDigits
      else JSONDecodeError
  end.

(** [n] times the digit 1. *)
Fixpoint ones (n : nat) : string :=
  match n with
  | O => EmptyString
  | S n' => String "1"%char (ones n')
  end.

Definition echo (x : ToolInput) : InvokeOutcome :=
  match x with
  | InParsed j => Returned (ResStructured j)
  | InRaw s => Returned (ResOther s)
  end.

Definition web_search : BaseTool :=
  {| name := "web_search"; description := "Search the web"; invoke := echo |}.
Definition read_file : BaseTool :=
  {| name := "read_file"; description := "Read a file from disk";
     invoke := fun _ => Returned (ResOther "0123456789") |}.
Definition send_email : BaseTool :=
  {| name := "send_email"; description := "Send an email, or search the inbox";
     invoke := fun _ => Failed "smtp down" |}.
(** A second tool that carries the name of [read_file]. *)
Definition read_file_v2 : BaseTool :=
  {| name := "read_file"; description := "Read a file, second edition";
     invoke := echo |}.

(** Matched by "search" in its name only. *)
Definition search_docs : BaseTool :=
  {| name := "search_docs"; description := "Look things up in the manual";
     invoke := echo |}.

Definition registry : list BaseTool :=
  [web_search; read_file; send_email; search_docs].

(** No embedding model, no store: the index is absent. *)
Definition no_index (s : Settings) (tools : list BaseTool)
  : option Embeddings * option VectorStore := (None, None).

(** A store that answers every query with the document of [read_file],
    twice: what a collection kept from an earlier session
    ([drop_old_collection] false) returns once the same tools were
    inserted again. *)
Definition stale_store : VectorStore :=
  fun _ _ _ => Some [Some "read_file"; Some "read_file"].

Definition stale_index (s : Settings) (tools : list BaseTool)
  : option Embeddings * option VectorStore :=
  (Some EmbeddingsHandle, Some stale_store).

(** The attributes after [__init__] and [set_up], given what
    [_build_vector_index] left behind. *)
Definition session_of (settings : Settings) (log : option (list string))
    (store : option VectorStore) (tools : list BaseTool) : Session :=
  {| _settings := settings; _all_tools := Some tools;
     _tool_map := Some (build_tool_map tools); _active_tools := Some [];
     _vector_store := store;
     _embeddings := match store with Some _ => Some EmbeddingsHandle | None => None end;
     tool_log := log; store_queries := [] |}.

(** Default settings, no index, usage log switched on. *)
Definition session : Session :=
  session_of get_default_settings (Some []) None registry.

(** The same with [max_result_chars] set to 4. *)
Definition short_session : Session :=
  session_of {| default_search_k := Some 100; max_result_chars := Some 4 |}
             (Some []) None registry.

(** The registry with the stale store as its index. *)
Definition stale_session : Session :=
  session_of get_default_settings None (Some stale_store) registry.

(** No index, and a registry in which two tools share a name. *)
Definition twin_session : Session :=
  session_of get_default_settings None None [read_file; read_file_v2].

(** An agent that searches, calls a failing tool, and answers. *)
Definition agent : Agent :=
  Ask (mkRequest "search" "file" PyNone "" "")
      (fun _ => Ask (mkRequest "call" "" PyNone "send_email" "")
                    (fun reply => Answer reply)).

(** A store that answers with the names of the first [k] documents it was
    built from. *)
Definition honest_store (docs : list Document) : VectorStore :=
  fun _ _ k => Some ((fun d => Some (metadata_name d)) <$> take (Z.to_nat k) docs).

(** A backend on which everything works. *)
Definition backend : IndexBackend :=
  {| HuggingFaceEmbeddings := fun _ => Some EmbeddingsHandle;
     from_documents := fun docs _ _ _ _ => Some (honest_store docs) |}.

(** A backend that cannot load the embedding model. *)
Definition offline_backend : IndexBackend :=
  {| HuggingFaceEmbeddings := fun _ => None;
     from_documents := fun docs _ _ _ _ => Some (honest_store docs) |}.

(** A store that raises at every query. *)
Definition broken_store : VectorStore := fun _ _ _ => None.

Definition broken_session : Session :=
  session_of get_default_settings None (Some broken_store) registry.

(** A store that answers with a name the registry does not have, a
    document without a name, and one registered name. *)
Definition foreign_store : VectorStore :=
  fun _ _ _ => Some [Some "ghost"; None; Some "send_email"].

Definition foreign_session : Session :=
  session_of get_default_settings None (Some foreign_store) registry.

(** [max_result_chars] set to -3. *)
Definition negative_session : Session :=
  session_of {| default_search_k := None; max_result_chars := Some (-3) |}
             None None registry.

(** A store that raises at its first call and answers with the document
    of [send_email] from then on. *)
Definition flaky_store : VectorStore :=
  fun served _ _ =>
    match served with
    | [] => None
    | _ => Some [Some "send_email"]
    end.

Definition flaky_session : Session :=
  session_of get_default_settings None (Some flaky_store) registry.

(** The active tools and the usage log that an earlier query left. *)
Definition used_session : Session :=
  set_tool_log (Some ["[TOOL] web_search"])
    (set_active_tools (Some [web_search; search_docs]) session).


End Sample.

(** ** The methods *)

Section Hub.

Set Default Proof Using "Type".

(** [json.loads] and [json.dumps], from the standard library. *)
Variable json_loads : string -> LoadsOutcome.
Variable json_dumps : Json -> string.

(** [_build_vector_index] (lines 59-90) talks to the embedding model and
    to Milvus and never raises; what it leaves behind is the embeddings
    handle, when the model could be loaded, and the store, when the whole
    construction went through. *)
Variable build_vector_index :
  Settings -> list BaseTool -> option Embeddings * option VectorStore.

(** *** [__init__], [set_up], [tear_down] *)

(** [__init__] (lines 44-50): every attribute is [None]. *)
Definition init (settings : Settings) (log : option (list string)) : Session :=
  {| _settings := settings; _all_tools := None; _tool_map := None;
     _active_tools := None; _vector_store := None; _embeddings := None;
     tool_log := log; store_queries := [] |}.

(** [set_up] (lines 52-57). The model handle that the base class keeps is
    used by the agent only and is left out. *)
Definition set_up (st : Session) (tools : list BaseTool) : Session :=
  let '(embeddings, store) := build_vector_index (_settings st) tools in
  {| _settings := _settings st;
     _all_tools := Some tools;
     _tool_map := Some (build_tool_map tools);
     _active_tools := Some [];
     _vector_store := store;
     _embeddings := match embeddings with
                    | Some e => Some e
                    | None => _embeddings st
                    end;
     tool_log := tool_log st; store_queries := [] |}.

(** [tear_down] (lines 247-253); the store is let go, and its state with
    it. *)
Definition tear_down (st : Session) : Session :=
  {| _settings := _settings st; _all_tools := None; _tool_map := None;
     _active_tools := None; _vector_store := None; _embeddings := None;
     tool_log := tool_log st; store_queries := [] |}.

(** *** [_handle_search] (lines 132-149) *)

(** The loop of lines 139-143; [existing_names] is the set computed on
    line 138, before the loop. *)
Definition merge_loop (existing_names : gset string) (matches : list BaseTool)
    (active : list BaseTool) : list BaseTool * list string :=
  fold_left
    (fun '(active, newly_added) t =>
       if decide (name t ∈ existing_names) then (active, newly_added)
       else ((active ++ [t])%list, (newly_added ++ [name t])%list))
    matches (active, []).

(** Lines 134-135. *)
Definition search_limit (st : Session) (k : PyVal) : Outcome Z :=
  let default_k := default DEFAULT_SEARCH_K (default_search_k (_settings st)) in
  _clamp_k k default_k.

Definition search_payload (newly_added active : list string) : Json :=
  JObj [("mode", JStr "search");
        ("fetched", JList (JStr <$> newly_added));
        ("active", JList (JStr <$> active))].

Definition _handle_search (st : Session) (query : string) (k : PyVal)
  : Outcome string * Session :=
  match search_limit st k with
  | Raise e => (Raise e, st)
  | Ret limit =>
      let matches := _search_tools st query limit in
      let st := record_query query limit st in
      match _active_tools st with
      | None => (Raise TypeError, st)
      | Some active =>
          let existing_names : gset string := list_to_set (name <$> active) in
          let '(active', newly_added) := merge_loop existing_names matches active in
          (Ret (json_dumps (search_payload newly_added (name <$> active'))),
           set_active_tools (Some active') st)
      end
  end.

(** *** [_log_tool_usage] (lines 186-194): never raises *)

Definition _log_tool_usage (tool_name : string) (st : Session) : Session :=
  match tool_log st with
  | Some lines => set_tool_log (Some (lines ++ ["[TOOL] " +:+ tool_name])%list) st
  | None => st
  end.

(** *** [_handle_call] (lines 151-184) *)

Definition not_found_payload (tool_name : string) : Json :=
  JObj [("mode", JStr "call");
        ("error", JStr ("tool '" +:+ tool_name +:+ "' not found"))].

Definition call_error_payload (tool_name msg : string) : Json :=
  JObj [("mode", JStr "call"); ("tool", JStr tool_name); ("error", JStr msg)].

Definition call_result_payload (tool_name result : string) : Json :=
  JObj [("mode", JStr "call"); ("tool", JStr tool_name); ("result", JStr result)].

(** Lines 159-162: only [JSONDecodeError] is caught. *)
Definition parse_input (tool_input : string) : Outcome ToolInput :=
  if Str.truthy tool_input then
    match json_loads tool_input with
    | Loaded j => Ret (InParsed j)
    | JSONDecodeError => Ret (InRaw tool_input)
    | LoadsRaised e => Raise (loads_exn e)
    end
  else Ret (InRaw tool_input).

(** Line 174. *)
Definition stringify (result : PyResult) : string :=
  match result with
  | ResStructured j => json_dumps j
  | ResOther text => text
  end.

Definition _handle_call (st : Session) (tool_name tool_input : string)
  : Outcome string * Session :=
  match _tool_map st with
  | None => (Raise AttributeError, st)
  | Some tool_map =>
      match tool_map !! tool_name with
      | None => (Ret (json_dumps (not_found_payload tool_name)), st)
      | Some tool =>
          match parse_input tool_input with
          | Raise e => (Raise e, st)
          | Ret parsed =>
              match _active_tools st with
              | None => (Raise TypeError, st)
              | Some active =>
                  let names : gset string := list_to_set (name <$> active) in
                  let st1 :=
                    if decide (name tool ∈ names) then st
                    else set_active_tools (Some (active ++ [tool])%list) st in
                  let st2 := _log_tool_usage (name tool) st1 in
                  match invoke tool parsed with
                  | Failed msg =>
                      (Ret (json_dumps (call_error_payload (name tool) msg)), st2)
                  | Returned result =>
                      let result_str := stringify result in
                      let max_chars :=
                        default DEFAULT_MAX_RESULT_CHARS
                                (max_result_chars (_settings st2)) in
                      (Ret (json_dumps
                              (call_result_payload (name tool)
                                 (Str.slice_to max_chars result_str))),
                       st2)
                  end
              end
          end
      end
  end.

(** *** [run], the function behind [tool_hub] (lines 203-213) *)

Definition invalid_action_payload : Json :=
  JObj [("error", JStr "invalid action; use 'search' or 'call'")].

Definition run (st : Session) (r : Request) : Outcome string * Session :=
  let act := Str.lower (Str.strip (action r)) in
  if (act =? "search")%string || (act =? "find")%string || (act =? "fetch")%string
     || (negb (Str.truthy act) && Str.truthy (query r))
  then _handle_search st (query r) (k r)
  else if (act =? "call")%string || Str.truthy (tool_name r)
  then _handle_call st (tool_name r) (tool_input r)
  else (Ret (json_dumps invalid_action_payload), st).

(** *** [process_query] (lines 227-245) *)

(** The agent loop, see [Agent]. *)
Fixpoint _invoke_agent_on_query (agent : Agent) (st : Session)
  : Outcome string * Session :=
  match agent with
  | Answer response => (Ret response, st)
  | Ask r next =>
      match run st r with
      | (Ret reply, st') => _invoke_agent_on_query (next reply) st'
      | (Raise e, st') => (Raise e, st')
      end
  end.

Definition process_query (st : Session) (agent : Agent)
  : Outcome (string * list string) * Session :=
  match _all_tools st with
  | None => (Raise (RuntimeError "process_query called before set_up"), st)
  | Some _ =>
      let st0 := set_active_tools (Some []) st in
      match _invoke_agent_on_query agent st0 with
      | (Raise e, st') => (Raise e, st')
      | (Ret response, st') =>
          match _active_tools st' with
          | None => (Raise TypeError, st')
          | Some active => (Ret (response, name <$> active), st')
          end
      end
  end.

(** ** The vocabulary of the statements *)

(** An entry of [ranked]: a tool with its score. *)
Definition scored (q : string) (t : BaseTool) : Z * BaseTool :=
  (lexical_score q t, t).

(** The order [sort_reverse] establishes between an entry and a later one. *)
Definition score_ge {A : Type} (x y : Z * A) : Prop := y.1 <= x.1.

(** The tools of one score, in registry order. *)
Definition by_score (q : string) (s : Z) (all_tools : list BaseTool) : list BaseTool :=
  filter (fun t => lexical_score q t = s) all_tools.

(** The ranking in the specification's words: the query lowercased and
    stripped; the tools of positive score, by decreasing score (3, 2 or 1),
    those of equal score in registry order. *)
Definition rank_spec (all_tools : list BaseTool) (query : string) : list BaseTool :=
  let q := Str.strip (Str.lower query) in
  (by_score q 3 all_tools ++ by_score q 2 all_tools ++ by_score q 1 all_tools)%list.

(** The query occurs in the name and not in the description. *)
Definition name_only (q : string) (t : BaseTool) : Prop :=
  Str.contains q (Str.lower (name t)) = true /\
  Str.contains q (Str.lower (description t)) = false.

(** The query occurs in the description and not in the name. *)
Definition description_only (q : string) (t : BaseTool) : Prop :=
  Str.contains q (Str.lower (name t)) = false /\
  Str.contains q (Str.lower (description t)) = true.

(** [score_ge] on the tools themselves. *)
Definition tool_score_ge (q : string) (a b : BaseTool) : Prop :=
  lexical_score q b <= lexical_score q a.

(** [clamp(v, lo, hi)], the way the specification writes it. *)
Definition clamp (v lo hi : Z) : Z :=
  if v <? lo then lo else if hi <? v then hi else v.

(** The tools of [matches] whose name is not among [names]. *)
Definition fresh_tools (names : list string) (matches : list BaseTool) : list BaseTool :=
  filter (fun t => name t ∉ names) matches.

(** Lines 165-166: the tool is appended unless its name is active. *)
Definition register (tool : BaseTool) (active : list BaseTool) : list BaseTool :=
  if decide (name tool ∈ name <$> active) then active else (active ++ [tool])%list.

(** The action as the specification normalises it: lowercased, then
    stripped. [run] strips first and lowercases afterwards, which is the
    same string. *)
Definition normalized (action : string) : string :=
  Str.strip (Str.lower action).

(** Rule 1 of the dispatcher. *)
Definition is_search_request (r : Request) : Prop :=
  normalized (action r) ∈ ["search"; "find"; "fetch"]
  \/ (normalized (action r) = "" /\ query r <> "").

(** The condition of rule 2. *)
Definition is_call_request (r : Request) : Prop :=
  normalized (action r) = "call" \/ tool_name r <> "".

(** A session is ready when the registry and the active tools are set. *)
Definition ready (st : Session) : Prop :=
  is_Some (_all_tools st) /\ is_Some (_tool_map st) /\ is_Some (_active_tools st).

(** The error of line 230. *)
Definition contract_error : Exn :=
  RuntimeError "process_query called before set_up".

(** An agent none of whose requests carries an infinite float for [k] or a
    tool input on which [json.loads] raises anything but
    [JSONDecodeError]. *)
Fixpoint plain_requests (agent : Agent) : Prop :=
  match agent with
  | Answer _ => True
  | Ask r next =>
      (forall negative, k r <> PyFloat (FInf negative))
      /\ returned (parse_input (tool_input r)) = true
      /\ forall reply, plain_requests (next reply)
  end.

(** The exceptions that the hub lets through in a session that is set up. *)
Definition hub_exception (e : Exn) : Prop :=
  e = OverflowError \/ e = ValueError \/ e = RecursionError.

(** Every search of the session returns tools of pairwise distinct names. *)
Definition distinct_matches (st : Session) : Prop :=
  forall served query limit,
    NoDup (name <$> _search_tools (set_store_queries served st) query limit).

(** The names of the active tools are pairwise distinct. *)
Definition active_distinct (st : Session) : Prop :=
  exists active, _active_tools st = Some active /\ NoDup (name <$> active).

(** The tools that the names coming back from the store stand for
    (lines 109-113): names missing from the documents or from the tool map
    are skipped, the order is kept. *)
Definition resolve (tool_map : gmap string BaseTool) (results : list (option string))
  : list BaseTool :=
  omap (fun doc_name => doc_name ≫= (fun n => tool_map !! n)) results.

(** The session without its store. *)
Definition without_store (st : Session) : Session :=
  {| _settings := _settings st; _all_tools := _all_tools st;
     _tool_map := _tool_map st; _active_tools := _active_tools st;
     _vector_store := None; _embeddings := _embeddings st;
     tool_log := tool_log st; store_queries := store_queries st |}.

(** The tool map is the one [set_up] builds from the registry, and the
    active tools are tools of the registry. *)
Definition registered (st : Session) : Prop :=
  exists all_tools active,
    _all_tools st = Some all_tools
    /\ _tool_map st = Some (build_tool_map all_tools)
    /\ _active_tools st = Some active
    /\ (forall t, t ∈ active -> t ∈ all_tools).

(** Two sessions with the same settings, registry, tool map, store and
    embeddings. *)
Definition same_setup (st st' : Session) : Prop :=
  _settings st' = _settings st /\ _all_tools st' = _all_tools st
  /\ _tool_map st' = _tool_map st /\ _vector_store st' = _vector_store st
  /\ _embeddings st' = _embeddings st.

(** The usage log of [st'] continues the one of [st]. *)
Definition log_extends (st st' : Session) : Prop :=
  match tool_log st, tool_log st' with
  | Some l, Some l' => l `prefix_of` l'
  | None, None => True
  | _, _ => False
  end.

(** The active tools of [st'] continue those of [st]. *)
Definition active_extends (st st' : Session) : Prop :=
  match _active_tools st, _active_tools st' with
  | Some a, Some a' => a `prefix_of` a'
  | None, None => True
  | _, _ => False
  end.

(** The calls the store of [st'] has served continue those of [st]. *)
Definition queries_extend (st st' : Session) : Prop :=
  store_queries st `prefix_of` store_queries st'.

(** A store that answers a call the same way whatever calls it has served
    before; no store at all is such a store. *)
Definition steady_store (st : Session) : Prop :=
  match _vector_store st with
  | None => True
  | Some store =>
      forall served served' query limit,
        store served query limit = store served' query limit
  end.

(** The line [_log_tool_usage] writes, without its line feed. *)
Definition log_line (tool_name : string) : string := "[TOOL] " +:+ tool_name.

(** The five payloads the hub can return. *)
Inductive hub_payload : Json -> Prop :=
  | payload_search (fetched active : list string) :
      hub_payload (search_payload fetched active)
  | payload_not_found (tool_name : string) :
      hub_payload (not_found_payload tool_name)
  | payload_call_error (tool_name msg : string) :
      hub_payload (call_error_payload tool_name msg)
  | payload_call_result (tool_name result : string) :
      hub_payload (call_result_payload tool_name result)
  | payload_invalid : hub_payload invalid_action_payload.

(** The keys of a JSON object, in order. *)
Definition object_keys (j : Json) : list string :=
  match j with
  | JObj fields => fst <$> fields
  | _ => []
  end.

(** A string that is empty or starts with a character that is no white
    space. *)
Definition no_leading_space (s : string) : Prop :=
  match s with
  | EmptyString => True
  | String c _ => Str.is_space c = false
  end.

(** Two sessions that differ in their usage logs at most. *)
Definition log_apart (st st' : Session) : Prop :=
  same_setup st st' /\ _active_tools st' = _active_tools st.

(** ** Facts about the string operations *)

Lemma is_space_lower_char (c : ascii) :
  Str.is_space (Str.lower_char c) = Str.is_space c.
Proof. destruct c as [[] [] [] [] [] [] [] []]; reflexivity. Qed.

Lemma lstrip_lower (s : string) :
  Str.lstrip (Str.lower s) = Str.lower (Str.lstrip s).
Proof.
  induction s as [|c s IH]; simpl; [reflexivity|].
  rewrite is_space_lower_char. destruct (Str.is_space c); auto.
Qed.

Lemma rstrip_lower (s : string) :
  Str.rstrip (Str.lower s) = Str.lower (Str.rstrip s).
Proof.
  induction s as [|c s IH]; simpl; [reflexivity|].
  rewrite IH, is_space_lower_char.
  destruct (Str.rstrip s); simpl; [|reflexivity].
  destruct (Str.is_space c); reflexivity.
Qed.

(** Stripping and lowercasing commute, so "lowercased and stripped" names
    one string whatever the order. *)
Lemma strip_lower_comm (s : string) :
  Str.strip (Str.lower s) = Str.lower (Str.strip s).
Proof. unfold Str.strip. rewrite lstrip_lower. apply rstrip_lower. Qed.

Lemma truthy_false (s : string) : Str.truthy s = false <-> s = "".
Proof. destruct s; simpl; split; congruence. Qed.

Lemma truthy_true (s : string) : Str.truthy s = true <-> s <> "".
Proof. destruct s; simpl; split; congruence. Qed.

Lemma contains_empty (s : string) : Str.contains "" s = true.
Proof. destruct s; reflexivity. Qed.

Lemma length_firstn (n : nat) (s : string) :
  String.length (Str.firstn n s) = Nat.min n (String.length s).
Proof.
  revert s; induction n as [|n IH]; intros [|c s]; simpl; auto.
Qed.

Lemma firstn_all (n : nat) (s : string) :
  (String.length s <= n)%nat -> Str.firstn n s = s.
Proof.
  revert s; induction n as [|n IH]; intros [|c s]; simpl; intros H;
    try reflexivity; try lia.
  f_equal. apply IH. lia.
Qed.

(** ** Facts about the ranking *)

Lemma lexical_score_cases (q : string) (t : BaseTool) :
  lexical_score q t = 0 \/ lexical_score q t = 1 \/
  lexical_score q t = 2 \/ lexical_score q t = 3.
Proof.
  unfold lexical_score, NAME_MATCH_WEIGHT, DESC_MATCH_WEIGHT.
  destruct (Str.contains q _), (Str.contains q _); simpl; auto.
Qed.

Lemma rank_loop_acc (q : string) (l : list BaseTool) (acc : list (Z * BaseTool)) :
  fold_left
    (fun ranked tool =>
       let score := lexical_score q tool in
       if 0 <? score then (ranked ++ [(score, tool)])%list else ranked)
    l acc
  = (acc ++ (scored q <$> filter (fun t => 0 < lexical_score q t) l))%list.
Proof.
  revert acc; induction l as [|t l IH]; intros acc; simpl.
  - by rewrite app_nil_r.
  - rewrite IH, filter_cons. destruct (Z.ltb_spec 0 (lexical_score q t)).
    + rewrite decide_True by done. by rewrite <- app_assoc.
    + rewrite decide_False by lia. done.
Qed.

(** The loop keeps, in registry order, the tools of positive score. *)
Lemma rank_loop_filter (q : string) (l : list BaseTool) :
  rank_loop q l = scored q <$> filter (fun t => 0 < lexical_score q t) l.
Proof. unfold rank_loop. by rewrite rank_loop_acc. Qed.

Section Sorting.
Context {A : Type}.
Implicit Types (x : Z * A) (l : list (Z * A)).

Lemma insert_by_score_filter (s : Z) x l :
  filter (fun y => y.1 = s) (insert_by_score x l)
  = if decide (x.1 = s) then x :: filter (fun y => y.1 = s) l
    else filter (fun y => y.1 = s) l.
Proof.
  induction l as [|y l IH]; simpl.
  - rewrite filter_cons, filter_nil. done.
  - destruct (Z.leb_spec y.1 x.1).
    + by rewrite filter_cons.
    + rewrite !(filter_cons _ y), IH.
      repeat case_decide; try done; lia.
Qed.

(** Stability: the entries of one score keep their relative order. *)
Lemma sort_reverse_stable (s : Z) l :
  filter (fun y => y.1 = s) (sort_reverse l) = filter (fun y => y.1 = s) l.
Proof.
  induction l as [|x l IH]; simpl; [done|].
  rewrite insert_by_score_filter, filter_cons, IH. done.
Qed.

Lemma insert_by_score_elem x y l :
  y ∈ insert_by_score x l <-> y = x \/ y ∈ l.
Proof.
  induction l as [|z l IH]; simpl.
  - rewrite list_elem_of_singleton, elem_of_nil. tauto.
  - destruct (z.1 <=? x.1); rewrite !elem_of_cons; [tauto|].
    rewrite IH. tauto.
Qed.

Lemma sort_reverse_elem y l : y ∈ sort_reverse l <-> y ∈ l.
Proof.
  induction l as [|x l IH]; simpl; [done|].
  rewrite insert_by_score_elem, IH, elem_of_cons. tauto.
Qed.

Lemma insert_by_score_sorted x l :
  StronglySorted score_ge l -> StronglySorted score_ge (insert_by_score x l).
Proof.
  induction 1 as [|y l Hl IH Hy]; simpl.
  - repeat constructor.
  - destruct (Z.leb_spec y.1 x.1).
    + constructor; [by constructor|].
      constructor; [done|].
      eapply Forall_impl; [exact Hy|]. unfold score_ge. intros; simpl in *; lia.
    + constructor; [done|].
      apply Forall_forall. intros z Hz. apply insert_by_score_elem in Hz.
      destruct Hz as [->|Hz]; [unfold score_ge; lia|].
      rewrite Forall_forall in Hy. by apply Hy.
Qed.

(** Scores never increase along the sorted list. *)
Lemma sort_reverse_sorted l : StronglySorted score_ge (sort_reverse l).
Proof.
  induction l as [|x l IH]; simpl; [constructor|].
  by apply insert_by_score_sorted.
Qed.

Lemma filter_score_above (s m : Z) l :
  Forall (fun y => y.1 <= m) l -> m < s -> filter (fun y => y.1 = s) l = [].
Proof.
  induction 1 as [|y l Hy Hl IH]; intros Hs; [done|].
  rewrite filter_cons, decide_False by lia. auto.
Qed.

(** A list sorted by decreasing score, with scores among 1, 2 and 3,
    is its entries of score 3, then those of score 2, then those of
    score 1. *)
Lemma sorted_three_buckets l :
  StronglySorted score_ge l ->
  Forall (fun y => y.1 = 1 \/ y.1 = 2 \/ y.1 = 3) l ->
  l = (filter (fun y => y.1 = 3) l ++ filter (fun y => y.1 = 2) l
       ++ filter (fun y => y.1 = 1) l)%list.
Proof.
  induction 1 as [|x l Hl IH Hx]; intros Hr; [done|].
  apply Forall_cons in Hr as [Hx3 Hr]. specialize (IH Hr).
  assert (Hle : Forall (fun y => y.1 <= x.1) l)
    by (eapply Forall_impl; [exact Hx|done]).
  rewrite !(filter_cons _ x).
  destruct Hx3 as [E|[E|E]].
  - rewrite decide_False, decide_False, decide_True by lia.
    rewrite (filter_score_above 3 x.1), (filter_score_above 2 x.1) by (done || lia).
    rewrite (filter_score_above 3 x.1), (filter_score_above 2 x.1) in IH by (done || lia).
    simpl in *. congruence.
  - rewrite decide_False, decide_True, decide_False by lia.
    rewrite (filter_score_above 3 x.1) by (done || lia).
    rewrite (filter_score_above 3 x.1) in IH by (done || lia).
    simpl in *. congruence.
  - rewrite decide_True, decide_False, decide_False by lia.
    simpl. congruence.
Qed.
End Sorting.

Lemma fmap_py_slice_to {A B : Type} (f : A -> B) (n : Z) (l : list A) :
  f <$> py_slice_to n l = py_slice_to n (f <$> l).
Proof.
  unfold py_slice_to. rewrite length_fmap.
  destruct (0 <=? n); apply fmap_take.
Qed.

Lemma py_slice_to_nonneg {A : Type} (n : Z) (l : list A) :
  0 <= n -> py_slice_to n l = take (Z.to_nat n) l.
Proof. intros H. unfold py_slice_to. destruct (Z.leb_spec 0 n); [done|lia]. Qed.

Lemma py_slice_to_nil {A : Type} (n : Z) : py_slice_to n (@nil A) = [].
Proof. unfold py_slice_to. destruct (0 <=? n); apply take_nil. Qed.

Lemma sorted_lookup {A : Type} (R : A -> A -> Prop) (l : list A) (i j : nat) (x y : A) :
  StronglySorted R l -> (i < j)%nat -> l !! i = Some x -> l !! j = Some y -> R x y.
Proof.
  intros Hs; revert i j. induction Hs as [|z l Hl IH Hz]; intros i j Hij Hi Hj.
  - by rewrite lookup_nil in Hi.
  - destruct j as [|j]; [lia|]. simpl in Hj. destruct i as [|i]; simpl in Hi.
    + injection Hi as ->. rewrite Forall_forall in Hz.
      apply Hz. by eapply list_elem_of_lookup_2.
    + apply (IH i j); [lia|done..].
Qed.

Lemma name_only_score (q : string) (t : BaseTool) :
  name_only q t -> lexical_score q t = 2.
Proof. intros [H1 H2]. unfold lexical_score. by rewrite H1, H2. Qed.

Lemma description_only_score (q : string) (t : BaseTool) :
  description_only q t -> lexical_score q t = 1.
Proof. intros [H1 H2]. unfold lexical_score. by rewrite H1, H2. Qed.

Lemma rank_loop_bucket (q : string) (s : Z) (l : list BaseTool) :
  0 < s ->
  snd <$> filter (fun y => y.1 = s) (rank_loop q l) = by_score q s l.
Proof.
  intros Hs. rewrite rank_loop_filter. unfold by_score.
  induction l as [|t l IH]; [done|].
  rewrite !(filter_cons _ t).
  destruct (decide (0 < lexical_score q t)) as [Hp|Hp].
  - rewrite fmap_cons, filter_cons.
    change (scored q t).1 with (lexical_score q t).
    destruct (decide (lexical_score q t = s)); [|exact IH].
    rewrite fmap_cons. simpl. f_equal. exact IH.
  - rewrite decide_False by lia. exact IH.
Qed.

Lemma rank_loop_scores (q : string) (l : list BaseTool) :
  Forall (fun y => y.1 = lexical_score q y.2 /\ 0 < y.1 /\ y.2 ∈ l) (rank_loop q l).
Proof.
  rewrite rank_loop_filter. apply Forall_forall. intros y Hy.
  apply list_elem_of_fmap in Hy as (t & -> & Ht).
  apply list_elem_of_filter in Ht as [Hp Ht]. by simpl.
Qed.

Lemma sorted_scores (q : string) (l : list BaseTool) :
  Forall (fun y => y.1 = lexical_score q y.2 /\ 0 < y.1 /\ y.2 ∈ l)
         (sort_reverse (rank_loop q l)).
Proof.
  apply Forall_forall. intros y Hy. apply (proj1 (sort_reverse_elem _ _)) in Hy.
  pose proof (rank_loop_scores q l) as H. rewrite Forall_forall in H.
  exact (H y Hy).
Qed.

(** The sorted ranking is the three buckets, one after the other. *)
Lemma ranked_buckets (q : string) (l : list BaseTool) :
  snd <$> sort_reverse (rank_loop q l)
  = (by_score q 3 l ++ by_score q 2 l ++ by_score q 1 l)%list.
Proof.
  rewrite (sorted_three_buckets (sort_reverse (rank_loop q l))).
  - rewrite !fmap_app, !sort_reverse_stable, !rank_loop_bucket by lia. done.
  - apply sort_reverse_sorted.
  - eapply Forall_impl; [apply sorted_scores|]. simpl. intros y (E & Hp & _).
    destruct (lexical_score_cases q y.2) as [?|[?|[?|?]]]; lia.
Qed.

Lemma ranked_sorted (q : string) (l : list BaseTool) :
  StronglySorted (tool_score_ge q) (snd <$> sort_reverse (rank_loop q l)).
Proof.
  pose proof (sort_reverse_sorted (rank_loop q l)) as Hs.
  pose proof (sorted_scores q l) as Hf.
  induction Hs as [|x r Hr IH Hx]; simpl; [constructor|].
  apply Forall_cons in Hf as [[Ex _] Hf]. constructor; [by apply IH|].
  rewrite Forall_fmap. rewrite Forall_forall in Hx, Hf |- *.
  intros y Hy. simpl. unfold tool_score_ge.
  destruct (Hf y Hy) as [Ey _]. specialize (Hx y Hy). unfold score_ge in Hx. lia.
Qed.

Lemma ranked_elem (q : string) (l : list BaseTool) (t : BaseTool) :
  t ∈ snd <$> sort_reverse (rank_loop q l) <-> t ∈ l /\ 0 < lexical_score q t.
Proof.
  rewrite ranked_buckets, !elem_of_app. unfold by_score.
  rewrite !list_elem_of_filter. split.
  - intros [[E Ht]|[[E Ht]|[E Ht]]]; (split; [exact Ht|lia]).
  - intros [Ht Hp].
    destruct (lexical_score_cases q t) as [E|[E|[E|E]]]; [lia| | |].
    + right; right. by split.
    + right; left. by split.
    + left. by split.
Qed.

(** The substring search in closed form: the ranking cut at [limit], or
    the registry cut at [limit] when that is empty. *)
Lemma substring_search_eq (all_tools : list BaseTool) (query : string) (limit : Z) :
  substring_search all_tools query limit
  = match py_slice_to limit (rank_spec all_tools query) with
    | [] => py_slice_to limit all_tools
    | top => top
    end.
Proof.
  unfold substring_search, rank_spec.
  rewrite fmap_py_slice_to, ranked_buckets, strip_lower_comm. done.
Qed.

Lemma search_tools_absent (st : Session) (all_tools : list BaseTool)
    (query : string) (limit : Z) :
  _all_tools st = Some all_tools -> _vector_store st = None ->
  _search_tools st query limit = substring_search all_tools query limit.
Proof.
  intros Ha Hv. unfold _search_tools, vector_search. rewrite Ha, Hv.
  destruct all_tools; [|done].
  unfold substring_search, rank_loop. simpl. by rewrite !py_slice_to_nil.
Qed.

Lemma rank_spec_sorted (all_tools : list BaseTool) (query : string) :
  StronglySorted (tool_score_ge (Str.strip (Str.lower query)))
                 (rank_spec all_tools query).
Proof. unfold rank_spec. rewrite <- ranked_buckets. apply ranked_sorted. Qed.

Lemma rank_spec_elem (all_tools : list BaseTool) (query : string) (t : BaseTool) :
  t ∈ rank_spec all_tools query
  <-> t ∈ all_tools /\ 0 < lexical_score (Str.strip (Str.lower query)) t.
Proof. unfold rank_spec. rewrite <- ranked_buckets. apply ranked_elem. Qed.

(** With a limit that is not negative the search returns the head of the
    ranking; the registry is used when the ranking is empty, and nothing
    is returned when the limit is 0. *)
Lemma substring_search_cases (all_tools : list BaseTool) (query : string) (limit : Z) :
  0 <= limit ->
  let ranking := rank_spec all_tools query in
  let result := substring_search all_tools query limit in
  (ranking <> [] /\ result = take (Z.to_nat limit) ranking)
  \/ (ranking = [] /\ result = take (Z.to_nat limit) all_tools)
  \/ (limit = 0 /\ result = []).
Proof.
  intros Hl ranking result. subst result. rewrite substring_search_eq.
  rewrite !py_slice_to_nonneg by done. fold ranking.
  destruct (take (Z.to_nat limit) ranking) as [|t top] eqn:E.
  - apply take_nil_inv in E as [E| ->].
    + right; right. split; [lia|]. by rewrite E, take_0.
    + right; left. done.
  - left. split; [|done]. intros ->. by rewrite take_nil in E.
Qed.

(** C2. The substring scorer: a tool scores 2 for the normalised query
    occurring in its lowercased name plus 1 for it occurring in its
    lowercased description; the ranking keeps exactly the tools of
    positive score, by decreasing score, tools of equal score in registry
    order; the result is that ranking cut at the limit (the registry cut at
    the limit when the cut is empty, see C3). A tool matched by name only
    stands before every tool matched by description only, and is returned
    whenever such a tool is. *)
Theorem lexical_ranking (all_tools : list BaseTool) (query : string) (limit : Z) :
  0 <= limit ->
  let q := Str.strip (Str.lower query) in
  let result := substring_search all_tools query limit in
  (forall t, lexical_score q t
             = (if Str.contains q (Str.lower (name t)) then 2 else 0)
               + (if Str.contains q (Str.lower (description t)) then 1 else 0))
  /\ snd <$> sort_reverse (rank_loop (Str.lower (Str.strip query)) all_tools)
     = rank_spec all_tools query
  /\ (forall t, t ∈ rank_spec all_tools query <-> t ∈ all_tools /\ 0 < lexical_score q t)
  /\ result = match take (Z.to_nat limit) (rank_spec all_tools query) with
              | [] => take (Z.to_nat limit) all_tools
              | top => top
              end
  /\ (Z.of_nat (length result) <= limit)
  /\ (forall a b, name_only q a -> description_only q b ->
        (forall i j, result !! i = Some a -> result !! j = Some b -> (i < j)%nat)
        /\ (b ∈ result -> a ∈ all_tools -> a ∈ result)).
Proof.
  intros Hl q result.
  split; [done|]. split; [by rewrite ranked_buckets, <- strip_lower_comm|].
  split; [apply rank_spec_elem|].
  split; [subst result; by rewrite substring_search_eq, !py_slice_to_nonneg|].
  pose proof (substring_search_cases all_tools query limit Hl) as Hc.
  simpl in Hc. fold result in Hc.
  split.
  { destruct Hc as [[_ ->]|[[_ ->]|[_ ->]]]; rewrite ?length_take; simpl; lia. }
  intros a b Ha Hb.
  pose proof (name_only_score _ _ Ha) as Sa.
  pose proof (description_only_score _ _ Hb) as Sb.
  pose proof (rank_spec_sorted all_tools query) as Hs. fold q in Hs.
  destruct Hc as [[Hne ->]|[[Hnil Hr]|[_ ->]]].
  - split.
    + intros i j Hi Hj.
      apply lookup_take_Some in Hi as [Hi _], Hj as [Hj _].
      destruct (lt_eq_lt_dec i j) as [[? | ->] | Hji]; [done|congruence|].
      pose proof (sorted_lookup _ _ _ _ _ _ Hs Hji Hj Hi) as H.
      unfold tool_score_ge in H. lia.
    + intros Hbr Hall. apply elem_of_take in Hbr as (i & Hi & Hin).
      assert (a ∈ rank_spec all_tools query) as Har
        by (apply rank_spec_elem; fold q; split; [done|lia]).
      apply list_elem_of_lookup in Har as [j Hj].
      apply elem_of_take. exists j. split; [done|].
      destruct (le_lt_dec (Z.to_nat limit) j) as [Hge|]; [|done].
      assert (i < j)%nat as Hij by lia.
      pose proof (sorted_lookup _ _ _ _ _ _ Hs Hij Hi Hj) as H.
      unfold tool_score_ge in H. lia.
  - assert (forall t, t ∈ all_tools -> lexical_score q t <= 0) as Hz.
    { intros t Ht. destruct (Z.le_gt_cases (lexical_score q t) 0); [done|].
      assert (t ∈ rank_spec all_tools query) as Hin
        by (apply rank_spec_elem; fold q; split; [done|lia]).
      rewrite Hnil in Hin. by apply elem_of_nil in Hin. }
    split.
    + intros i j Hi _. rewrite Hr in Hi. apply lookup_take_Some in Hi as [Hi _].
      apply list_elem_of_lookup_2, Hz in Hi. lia.
    + intros _ Hall. apply Hz in Hall. lia.
  - split.
    + intros i j Hi _. by rewrite lookup_nil in Hi.
    + intros Hbr. by apply elem_of_nil in Hbr.
Qed.

(** ** The clamp *)

Lemma clamp_max_min (v : Z) : Z.max MIN_K (Z.min v MAX_K) = clamp v 1 50.
Proof. unfold clamp, MIN_K, MAX_K. repeat case_match; lia. Qed.

(** Which exceptions [int()] raises, and for which values. *)
Lemma int_raises (k : PyVal) (e : Exn) :
  Builtins.int k = Raise e ->
  e = TypeError \/ e = ValueError
  \/ (e = OverflowError /\ exists negative, k = PyFloat (FInf negative)).
Proof.
  destruct k as [|z|s|[|negative|m x]|]; simpl; try (intros [= <-]; auto); try done.
  - destruct (Builtins.of_string s); intros [= <-]. auto.
  - right; right. split; [done|]. by exists negative.
Qed.

Lemma clamp_k_value (k : PyVal) (default : Z) :
  _clamp_k k default
  = match Builtins.int k with
    | Ret v => Ret (clamp v 1 50)
    | Raise ValueError | Raise TypeError => Ret (clamp default 1 50)
    | Raise e => Raise e
    end.
Proof.
  unfold _clamp_k. destruct k as [|z|s|[|negative|m x]|]; simpl;
    rewrite ?clamp_max_min; try done.
  destruct (Builtins.of_string s); by rewrite clamp_max_min.
Qed.

Lemma clamp_range (v : Z) : 1 <= clamp v 1 50 <= 50.
Proof. unfold clamp. repeat case_match; lia. Qed.

Lemma clamp_id (v : Z) : 1 <= v <= 50 -> clamp v 1 50 = v.
Proof. unfold clamp. intros H. repeat case_match; lia. Qed.

Lemma clamp_k_range (k : PyVal) (d limit : Z) :
  _clamp_k k d = Ret limit -> 1 <= limit <= 50.
Proof.
  rewrite clamp_k_value.
  destruct (Builtins.int k) as [v|[]]; intros [= <-]; apply clamp_range.
Qed.

Lemma clamp_k_raises (k : PyVal) (d : Z) (e : Exn) :
  _clamp_k k d = Raise e ->
  e = OverflowError /\ exists negative, k = PyFloat (FInf negative).
Proof.
  rewrite clamp_k_value. destruct (Builtins.int k) as [v|x] eqn:E; [done|].
  destruct (int_raises k x E) as [->|[->|[-> H]]]; try done.
  by intros [= <-].
Qed.

Lemma search_limit_range (st : Session) (k : PyVal) (limit : Z) :
  search_limit st k = Ret limit -> 1 <= limit <= 50.
Proof. apply clamp_k_range. Qed.


(** ** The active tools *)

Lemma merge_loop_acc (existing : gset string) (matches active : list BaseTool)
    (newly_added : list string) :
  fold_left
    (fun '(active, newly_added) t =>
       if decide (name t ∈ existing) then (active, newly_added)
       else ((active ++ [t])%list, (newly_added ++ [name t])%list))
    matches (active, newly_added)
  = ((active ++ filter (fun t => name t ∉ existing) matches)%list,
     (newly_added ++ (name <$> filter (fun t => name t ∉ existing) matches))%list).
Proof.
  revert active newly_added. induction matches as [|t l IH]; intros active newly_added.
  - simpl. by rewrite !app_nil_r.
  - simpl. rewrite filter_cons. destruct (decide (name t ∈ existing)) as [Hin|Hin].
    + rewrite decide_False by (intros H; by apply H). apply IH.
    + rewrite decide_True by done. rewrite IH, fmap_cons, <- !app_assoc. done.
Qed.

(** The loop appends, in the order of [matches], the tools whose name was
    not active before the loop, and reports their names. *)
Lemma merge_loop_eq (active matches : list BaseTool) :
  merge_loop (list_to_set (name <$> active)) matches active
  = ((active ++ fresh_tools (name <$> active) matches)%list,
     name <$> fresh_tools (name <$> active) matches).
Proof.
  unfold merge_loop. rewrite merge_loop_acc. unfold fresh_tools. simpl.
  rewrite (list_filter_iff (fun t => name t ∉ (list_to_set (name <$> active) : gset string))
                           (fun t => name t ∉ name <$> active)); [done|].
  intros t. by rewrite elem_of_list_to_set.
Qed.

Lemma record_query_fields (query : string) (limit : Z) (st : Session) :
  _settings (record_query query limit st) = _settings st
  /\ _all_tools (record_query query limit st) = _all_tools st
  /\ _tool_map (record_query query limit st) = _tool_map st
  /\ _active_tools (record_query query limit st) = _active_tools st
  /\ _vector_store (record_query query limit st) = _vector_store st
  /\ _embeddings (record_query query limit st) = _embeddings st
  /\ tool_log (record_query query limit st) = tool_log st.
Proof. unfold record_query. by destruct (store_consulted st). Qed.

Lemma record_query_absent (query : string) (limit : Z) (st : Session) :
  _vector_store st = None -> record_query query limit st = st.
Proof.
  intros H. unfold record_query, store_consulted. rewrite H.
  by destruct (_all_tools st) as [[|? ?]|].
Qed.

Lemma record_query_empty (query : string) (limit : Z) (st : Session) :
  _all_tools st = Some [] -> record_query query limit st = st.
Proof. intros H. unfold record_query, store_consulted. by rewrite H. Qed.

Lemma handle_search_raise (st : Session) (query : string) (k : PyVal) (e : Exn) :
  search_limit st k = Raise e -> _handle_search st query k = (Raise e, st).
Proof. intros H. unfold _handle_search. by rewrite H. Qed.

Lemma handle_search_eq (st : Session) (query : string) (k : PyVal)
    (active : list BaseTool) (limit : Z) :
  _active_tools st = Some active ->
  search_limit st k = Ret limit ->
  let matches := _search_tools st query limit in
  let fresh := fresh_tools (name <$> active) matches in
  _handle_search st query k
  = (Ret (json_dumps (search_payload (name <$> fresh) (name <$> (active ++ fresh)%list))),
     set_active_tools (Some (active ++ fresh)%list) (record_query query limit st)).
Proof.
  intros Ha Hl matches fresh. unfold _handle_search. rewrite Hl.
  destruct (record_query_fields query limit st) as (_ & _ & _ & -> & _).
  rewrite Ha. fold matches. rewrite merge_loop_eq. done.
Qed.


(** ** The registry *)

Lemma build_tool_map_acc (tools : list BaseTool) (m : gmap string BaseTool) (n : string) :
  fold_left (fun m t => <[name t := t]> m) tools m !! n
  = match last (filter (fun t => name t = n) tools) with
    | Some t => Some t
    | None => m !! n
    end.
Proof.
  revert m. induction tools as [|t l IH]; intros m; [done|].
  simpl. rewrite IH, filter_cons.
  destruct (decide (name t = n)) as [E|E].
  - destruct (filter (fun t => name t = n) l) as [|u l'] eqn:F.
    + simpl. rewrite E. apply lookup_insert_eq.
    + rewrite last_cons_cons. destruct (last (u :: l')) eqn:L; [done|].
      by apply last_None in L.
  - by rewrite lookup_insert_ne.
Qed.

(** A name maps to the last tool of that name in the list. *)
Lemma build_tool_map_lookup (tools : list BaseTool) (n : string) :
  build_tool_map tools !! n = last (filter (fun t => name t = n) tools).
Proof.
  unfold build_tool_map. rewrite build_tool_map_acc, lookup_empty.
  by destruct (last _).
Qed.

Lemma build_tool_map_Some (tools : list BaseTool) (n : string) (t : BaseTool) :
  build_tool_map tools !! n = Some t -> name t = n /\ t ∈ tools.
Proof.
  rewrite build_tool_map_lookup. intros H.
  apply last_Some_elem_of, list_elem_of_filter in H. done.
Qed.

Lemma build_tool_map_None (tools : list BaseTool) (n : string) :
  build_tool_map tools !! n = None <-> n ∉ name <$> tools.
Proof.
  rewrite build_tool_map_lookup, last_None. split.
  - intros F Hin. apply list_elem_of_fmap in Hin as (t & -> & Ht).
    by apply (filter_nil_not_elem_of _ _ t F).
  - intros Hn. apply elem_of_nil_inv. intros t Ht.
    apply list_elem_of_filter in Ht as [<- Ht]. apply Hn.
    by apply list_elem_of_fmap_2.
Qed.

(** ** [_handle_call] in closed form *)

Lemma set_active_tools_same (st : Session) (active : list BaseTool) :
  _active_tools st = Some active -> set_active_tools (Some active) st = st.
Proof. destruct st; simpl; by intros ->. Qed.

Lemma handle_call_unknown (st : Session) (tm : gmap string BaseTool)
    (tool_name tool_input : string) :
  _tool_map st = Some tm -> tm !! tool_name = None ->
  _handle_call st tool_name tool_input
  = (Ret (json_dumps (not_found_payload tool_name)), st).
Proof. intros Hm Hn. unfold _handle_call. by rewrite Hm, Hn. Qed.

Lemma parse_input_raises (tool_input : string) (e : Exn) :
  parse_input tool_input = Raise e ->
  tool_input <> ""
  /\ exists x, json_loads tool_input = LoadsRaised x /\ e = loads_exn x
     /\ (e = ValueError \/ e = RecursionError).
Proof.
  unfold parse_input. destruct tool_input as [|c s]; [done|]. simpl.
  destruct (json_loads _) as [j| |x]; try done. intros [= <-].
  split; [done|]. exists x. split; [done|]. split; [done|]. destruct x; auto.
Qed.

Lemma handle_call_known (st : Session) (tm : gmap string BaseTool)
    (tool : BaseTool) (active : list BaseTool) (tool_name tool_input : string)
    (parsed : ToolInput) :
  _tool_map st = Some tm -> tm !! tool_name = Some tool ->
  _active_tools st = Some active ->
  parse_input tool_input = Ret parsed ->
  let st' := _log_tool_usage (name tool)
               (set_active_tools (Some (register tool active)) st) in
  let max_chars := default DEFAULT_MAX_RESULT_CHARS (max_result_chars (_settings st)) in
  _handle_call st tool_name tool_input
  = (Ret (json_dumps
            match invoke tool parsed with
            | Failed msg => call_error_payload (name tool) msg
            | Returned result =>
                call_result_payload (name tool)
                  (Str.slice_to max_chars (stringify result))
            end),
     st').
Proof.
  intros Hm Ht Ha Hp st' max_chars. unfold _handle_call. rewrite Hm, Ht, Hp, Ha.
  assert ((if decide (name tool ∈ (list_to_set (name <$> active) : gset string))
           then st else set_active_tools (Some (active ++ [tool])%list) st)
          = set_active_tools (Some (register tool active)) st) as ->.
  { unfold register. destruct (decide (name tool ∈ name <$> active)) as [Hin|Hin].
    - rewrite decide_True by (by apply elem_of_list_to_set).
      by rewrite set_active_tools_same.
    - rewrite decide_False; [done|]. by rewrite elem_of_list_to_set. }
  fold st'.
  assert (_settings st' = _settings st) as ->.
  { subst st'. unfold _log_tool_usage. by destruct (tool_log _). }
  fold max_chars. by destruct (invoke tool _).
Qed.

(** When [json.loads] raises anything but [JSONDecodeError], the call is
    left on line 160: nothing is registered, logged or invoked. *)
Lemma handle_call_raises (st : Session) (tm : gmap string BaseTool)
    (tool : BaseTool) (tool_name tool_input : string) (e : Exn) :
  _tool_map st = Some tm -> tm !! tool_name = Some tool ->
  parse_input tool_input = Raise e ->
  _handle_call st tool_name tool_input = (Raise e, st).
Proof. intros Hm Ht Hp. unfold _handle_call. by rewrite Hm, Ht, Hp. Qed.

Lemma log_tool_usage_active (n : string) (st : Session) :
  _active_tools (_log_tool_usage n st) = _active_tools st.
Proof. unfold _log_tool_usage. by destruct (tool_log st). Qed.

Lemma register_elem (tool : BaseTool) (active : list BaseTool) :
  name tool ∈ name <$> register tool active.
Proof.
  unfold register. destruct (decide _) as [Hin|Hin]; [done|].
  rewrite fmap_app, elem_of_app. right. simpl. apply list_elem_of_singleton. done.
Qed.

(** C7. When the invocation of a registered tool succeeds and
    [max_result_chars] is not negative, the result field of the call
    payload is the first [max_result_chars] characters of the stringified
    result: exactly [max_result_chars] long when the result is longer than
    that, and the stringified result itself otherwise. *)
Theorem call_result_truncated (st : Session) (tm : gmap string BaseTool)
    (tool : BaseTool) (active : list BaseTool) (tool_name tool_input : string)
    (parsed : ToolInput) (result : PyResult) :
  _tool_map st = Some tm -> tm !! tool_name = Some tool ->
  _active_tools st = Some active ->
  parse_input tool_input = Ret parsed ->
  invoke tool parsed = Returned result ->
  let max_chars := default DEFAULT_MAX_RESULT_CHARS (max_result_chars (_settings st)) in
  0 <= max_chars ->
  exists field,
    (_handle_call st tool_name tool_input).1
    = Ret (json_dumps (JObj [("mode", JStr "call"); ("tool", JStr (name tool));
                             ("result", JStr field)]))
    /\ field = Str.firstn (Z.to_nat max_chars) (stringify result)
    /\ (max_chars < Z.of_nat (String.length (stringify result)) ->
        Z.of_nat (String.length field) = max_chars)
    /\ (Z.of_nat (String.length (stringify result)) <= max_chars ->
        field = stringify result).
Proof.
  intros Hm Ht Ha Hp Hi max_chars Hmax.
  exists (Str.firstn (Z.to_nat max_chars) (stringify result)).
  split.
  - rewrite (handle_call_known st tm tool active _ _ parsed) by done.
    rewrite Hi. simpl.
    fold max_chars. unfold call_result_payload, Str.slice_to.
    destruct (Z.leb_spec 0 max_chars); [done|lia].
  - split; [done|]. split; intros H.
    + rewrite length_firstn. lia.
    + apply firstn_all. lia.
Qed.

(** C9. A call of a registered tool registers it among the active tools
    (lines 165-166) and logs it before invoking it (line 173), so the
    session after the call is the same whether the invocation returns or
    fails: the tool is active, appended when its name was not active and
    the active tools untouched when it was. When the invocation fails the
    reply is the payload with mode call, the tool's name and the error
    message, and nothing is raised; when it returns the reply is the
    payload with the result. The input is the one [json.loads] or its
    [JSONDecodeError] handler produced; when [json.loads] raises anything
    else the call is left before the registration, with the session as it
    was. *)
Theorem call_failure_keeps_tool_active (st : Session) (tools active : list BaseTool)
    (tool : BaseTool) (tool_name tool_input : string) (parsed : ToolInput) :
  _tool_map st = Some (build_tool_map tools) ->
  build_tool_map tools !! tool_name = Some tool ->
  _active_tools st = Some active ->
  parse_input tool_input = Ret parsed ->
  let st' := (_handle_call st tool_name tool_input).2 in
  let max_chars := default DEFAULT_MAX_RESULT_CHARS (max_result_chars (_settings st)) in
  st' = _log_tool_usage tool_name
          (set_active_tools (Some (register tool active)) st)
  /\ _active_tools st' = Some (register tool active)
  /\ (forall names, active_names st' = Some names -> tool_name ∈ names)
  /\ (tool_name ∉ name <$> active ->
      active_names st' = Some ((name <$> active) ++ [tool_name])%list)
  /\ (tool_name ∈ name <$> active -> _active_tools st' = Some active)
  /\ (forall msg, invoke tool parsed = Failed msg ->
        (_handle_call st tool_name tool_input).1
        = Ret (json_dumps (JObj [("mode", JStr "call"); ("tool", JStr tool_name);
                                 ("error", JStr msg)])))
  /\ (forall result, invoke tool parsed = Returned result ->
        (_handle_call st tool_name tool_input).1
        = Ret (json_dumps (JObj [("mode", JStr "call"); ("tool", JStr tool_name);
                                 ("result",
                                  JStr (Str.slice_to max_chars (stringify result)))])))
  /\ (forall tool_input' e, parse_input tool_input' = Raise e ->
        _handle_call st tool_name tool_input' = (Raise e, st)).
Proof.
  intros Hm Ht Ha Hp st' max_chars.
  destruct (build_tool_map_Some _ _ _ Ht) as [Hname _].
  assert (st' = _log_tool_usage tool_name
                  (set_active_tools (Some (register tool active)) st)) as Hst.
  { subst st'. rewrite (handle_call_known st _ tool active _ _ parsed) by done.
    by rewrite Hname. }
  split; [done|]. rewrite Hst.
  assert (_active_tools (_log_tool_usage tool_name
            (set_active_tools (Some (register tool active)) st))
          = Some (register tool active)) as Hact.
  { by rewrite log_tool_usage_active. }
  split; [done|]. unfold active_names. rewrite Hact.
  split; [intros names [= <-]; rewrite <- Hname; apply register_elem|].
  split.
  { intros Hn. unfold register. rewrite Hname.
    rewrite decide_False by done. by rewrite fmap_app, <- Hname. }
  split.
  { intros Hin. unfold register. rewrite Hname. by rewrite decide_True. }
  split.
  { intros msg Hi. rewrite (handle_call_known st _ tool active _ _ parsed) by done.
    by rewrite Hi, Hname. }
  split.
  { intros result Hi.
    rewrite (handle_call_known st _ tool active _ _ parsed) by done.
    by rewrite Hi, Hname. }
  intros tool_input' e He. by apply (handle_call_raises st (build_tool_map tools) tool).
Qed.

(** ** Routing *)

Lemma search_test_iff (act q : string) :
  (act =? "search")%string || (act =? "find")%string || (act =? "fetch")%string
  || (negb (Str.truthy act) && Str.truthy q) = true
  <-> act ∈ ["search"; "find"; "fetch"] \/ (act = "" /\ q <> "").
Proof.
  rewrite !orb_true_iff, andb_true_iff, negb_true_iff, !String.eqb_eq.
  rewrite truthy_false, truthy_true, !elem_of_cons, elem_of_nil.
  clear. tauto.
Qed.

Lemma call_test_iff (act n : string) :
  (act =? "call")%string || Str.truthy n = true <-> act = "call" \/ n <> "".
Proof. by rewrite orb_true_iff, String.eqb_eq, truthy_true. Qed.

Lemma run_search (st : Session) (r : Request) :
  is_search_request r -> run st r = _handle_search st (query r) (k r).
Proof.
  unfold is_search_request, normalized. rewrite strip_lower_comm.
  intros H. apply search_test_iff in H. unfold run. by rewrite H.
Qed.

Lemma run_not_search (st : Session) (r : Request) :
  ~ is_search_request r ->
  run st r
  = if (Str.lower (Str.strip (action r)) =? "call")%string
       || Str.truthy (tool_name r)
    then _handle_call st (tool_name r) (tool_input r)
    else (Ret (json_dumps invalid_action_payload), st).
Proof.
  unfold is_search_request, normalized. rewrite strip_lower_comm.
  intros H. rewrite <- search_test_iff in H. apply not_true_is_false in H.
  unfold run. by rewrite H.
Qed.

Lemma run_call (st : Session) (r : Request) :
  ~ is_search_request r -> is_call_request r ->
  run st r = _handle_call st (tool_name r) (tool_input r).
Proof.
  intros Hs Hc. rewrite run_not_search by done.
  unfold is_call_request, normalized in Hc. rewrite strip_lower_comm in Hc.
  apply call_test_iff in Hc. by rewrite Hc.
Qed.

Lemma run_invalid (st : Session) (r : Request) :
  ~ is_search_request r -> ~ is_call_request r ->
  run st r = (Ret (json_dumps invalid_action_payload), st).
Proof.
  intros Hs Hc. rewrite run_not_search by done.
  unfold is_call_request, normalized in Hc. rewrite strip_lower_comm in Hc.
  rewrite <- call_test_iff in Hc. apply not_true_is_false in Hc. by rewrite Hc.
Qed.

Lemma search_request_dec (r : Request) :
  is_search_request r \/ ~ is_search_request r.
Proof.
  unfold is_search_request, normalized. rewrite strip_lower_comm.
  rewrite <- search_test_iff. destruct (_ || _ || _ || _); [by left|by right].
Qed.

Lemma call_request_dec (r : Request) : is_call_request r \/ ~ is_call_request r.
Proof.
  unfold is_call_request, normalized. rewrite strip_lower_comm.
  rewrite <- call_test_iff. destruct (_ || _); [by left|by right].
Qed.

Lemma record_query_ready (query : string) (limit : Z) (st : Session) :
  ready st -> ready (record_query query limit st).
Proof.
  unfold ready. by destruct (record_query_fields query limit st) as (_ & -> & -> & -> & _).
Qed.

(** In a ready session a search raises only when the conversion of [k]
    does, and then the session is as it was. *)
Lemma handle_search_ready (st : Session) (query : string) (k : PyVal) :
  ready st ->
  ready (_handle_search st query k).2
  /\ (forall e, (_handle_search st query k).1 = Raise e ->
        search_limit st k = Raise e /\ (_handle_search st query k).2 = st).
Proof.
  intros Hr. destruct (search_limit st k) as [limit|x] eqn:E.
  - destruct Hr as (Ht & Hm & [active Ha]).
    rewrite (handle_search_eq st query k active limit Ha E). simpl.
    split; [|done].
    destruct (record_query_fields query limit st) as (_ & Et & Em & _).
    unfold ready. simpl. rewrite Et, Em. eauto.
  - rewrite (handle_search_raise st query k x E). simpl. split; [done|].
    by intros e [= <-].
Qed.

Lemma log_tool_usage_ready (n : string) (st : Session) :
  ready st -> ready (_log_tool_usage n st).
Proof. unfold _log_tool_usage. by destruct (tool_log st). Qed.

(** In a ready session a call raises only when [json.loads] does, and then
    the session is as it was. *)
Lemma handle_call_ready (st : Session) (tool_name tool_input : string) :
  ready st ->
  ready (_handle_call st tool_name tool_input).2
  /\ (forall e, (_handle_call st tool_name tool_input).1 = Raise e ->
        parse_input tool_input = Raise e
        /\ (_handle_call st tool_name tool_input).2 = st).
Proof.
  intros (Ht & [tm Hm] & [active Ha]).
  destruct (tm !! tool_name) as [tool|] eqn:E.
  - destruct (parse_input tool_input) as [parsed|x] eqn:P.
    + rewrite (handle_call_known st tm tool active _ _ parsed) by done. simpl.
      split; [|done]. apply log_tool_usage_ready. unfold ready. simpl.
      rewrite Hm. eauto.
    + rewrite (handle_call_raises st tm tool _ _ x) by done. simpl.
      split; [unfold ready; rewrite Hm, Ha; eauto|]. by intros e [= <-].
  - rewrite (handle_call_unknown st tm) by done. simpl.
    split; [|done]. unfold ready. rewrite Hm, Ha. eauto.
Qed.

(** In a ready session the session stays ready, and the hub raises only
    what the conversion of [k] raises in a search and what [json.loads]
    raises in a call; the session is then as it was. *)
Lemma run_ready (st : Session) (r : Request) :
  ready st ->
  ready (run st r).2
  /\ (forall e, (run st r).1 = Raise e ->
        (run st r).2 = st
        /\ ((is_search_request r /\ search_limit st (k r) = Raise e)
            \/ (~ is_search_request r /\ is_call_request r
                /\ parse_input (tool_input r) = Raise e))).
Proof.
  intros H. destruct (search_request_dec r) as [Hs|Hs].
  - rewrite (run_search st r Hs).
    destruct (handle_search_ready st (query r) (k r) H) as [Hr He].
    split; [done|]. intros e E. destruct (He e E) as [? ?]. split; [done|].
    left. done.
  - destruct (call_request_dec r) as [Hc|Hc].
    + rewrite (run_call st r Hs Hc).
      destruct (handle_call_ready st (tool_name r) (tool_input r) H) as [Hr He].
      split; [done|]. intros e E. destruct (He e E) as [? ?]. split; [done|].
      right. done.
    + rewrite (run_invalid st r Hs Hc). simpl. split; [done|]. done.
Qed.

Lemma run_raises (st : Session) (r : Request) (e : Exn) :
  ready st -> (run st r).1 = Raise e ->
  e = OverflowError \/ e = ValueError \/ e = RecursionError.
Proof.
  intros H E. destruct (run_ready st r H) as [_ He].
  destruct (He e E) as [_ [[_ Hk]|(_ & _ & Hp)]].
  - apply clamp_k_raises in Hk as [-> _]. auto.
  - apply parse_input_raises in Hp as (_ & x & _ & _ & [->| ->]); auto.
Qed.

(** C1. The dispatcher applies its rules in order. A request whose
    normalised action is search, find or fetch, or whose normalised action
    is empty while the query is not, is handled by [_handle_search]; any
    other request whose normalised action is call, or whose tool name is
    not empty, is handled by [_handle_call]; every other request gets the
    payload with the error "invalid action; use 'search' or 'call'", with
    the session untouched, and nothing is raised. In the other two cases,
    once the session is set up, the only exceptions that reach the caller
    are the one of the conversion of [k] (a search with an infinite float
    for [k]) and those [json.loads] raises besides [JSONDecodeError] (a
    call of a registered tool); the session is then as it was. *)
Theorem run_routing (st : Session) (r : Request) :
  (is_search_request r -> run st r = _handle_search st (query r) (k r))
  /\ (~ is_search_request r -> is_call_request r ->
      run st r = _handle_call st (tool_name r) (tool_input r))
  /\ (~ is_search_request r -> ~ is_call_request r ->
      run st r
      = (Ret (json_dumps (JObj [("error", JStr "invalid action; use 'search' or 'call'")])),
         st))
  /\ (ready st -> forall e, (run st r).1 = Raise e ->
        (run st r).2 = st
        /\ ((is_search_request r /\ search_limit st (k r) = Raise e
             /\ e = OverflowError)
            \/ (~ is_search_request r /\ is_call_request r
                /\ parse_input (tool_input r) = Raise e
                /\ (e = ValueError \/ e = RecursionError))))
  /\ (ready st -> is_search_request r ->
      (forall negative, k r <> PyFloat (FInf negative)) ->
      returned (run st r).1 = true)
  /\ (ready st -> ~ is_search_request r ->
      returned (parse_input (tool_input r)) = true ->
      returned (run st r).1 = true)
  /\ normalized (action r) = Str.lower (Str.strip (action r)).
Proof.
  split; [apply run_search|]. split; [apply run_call|].
  split; [apply run_invalid|].
  split.
  { intros H e E. destruct (run_ready st r H) as [_ He].
    destruct (He e E) as [Hst [[Hs Hk]|(Hs & Hc & Hp)]]; (split; [done|]).
    - left. split; [done|]. split; [done|].
      by apply clamp_k_raises in Hk as [-> _].
    - right. split; [done|]. split; [done|]. split; [done|].
      by apply parse_input_raises in Hp as (_ & x & _ & _ & ?). }
  split.
  { intros H Hs Hk. destruct (run st r).1 as [reply|e] eqn:E; [done|].
    destruct (run_ready st r H) as [_ He].
    destruct (He e E) as [_ [[_ Hl]|(Hn & _)]]; [|done].
    apply clamp_k_raises in Hl as [_ [negative Hl]]. by destruct (Hk negative). }
  split.
  { intros H Hs Hp. destruct (run st r).1 as [reply|e] eqn:E; [done|].
    destruct (run_ready st r H) as [_ He].
    destruct (He e E) as [_ [[? _]|(_ & _ & Hx)]]; [done|].
    by rewrite Hx in Hp. }
  apply strip_lower_comm.
Qed.

(** C6. A call that names no tool of the registry returns the payload
    with mode call and the error "tool '<name>' not found", without
    raising, and leaves the whole session as it was: the active tools, the
    registry, the index and the usage log. *)
Theorem call_unknown_tool (st : Session) (tm : gmap string BaseTool) (r : Request) :
  _tool_map st = Some tm -> tm !! tool_name r = None ->
  ~ is_search_request r -> is_call_request r ->
  run st r
  = (Ret (json_dumps
            (JObj [("mode", JStr "call");
                   ("error", JStr ("tool '" +:+ tool_name r +:+ "' not found"))])),
     st)
  /\ _handle_call st (tool_name r) (tool_input r) = run st r.
Proof.
  intros Hm Hn Hs Hc. rewrite run_call by done.
  split; [|done]. by apply (handle_call_unknown st tm).
Qed.

(** ** The fallback to the head of the registry *)

Lemma lexical_score_empty (t : BaseTool) : lexical_score "" t = 3.
Proof. unfold lexical_score. by rewrite !contains_empty. Qed.

Lemma by_score_empty_query (s : Z) (l : list BaseTool) :
  by_score "" s l = if decide (s = 3) then l else [].
Proof.
  unfold by_score. induction l as [|t l IH]; [by destruct (decide _)|].
  rewrite filter_cons, IH, lexical_score_empty.
  destruct (decide (s = 3)) as [->|Hs].
  - by rewrite decide_True.
  - by rewrite decide_False.
Qed.

Lemma rank_loop_empty_query (l : list BaseTool) :
  rank_loop "" l = (fun t => (3, t)) <$> l.
Proof.
  rewrite rank_loop_filter. induction l as [|t l IH]; [done|].
  rewrite filter_cons, decide_True by (rewrite lexical_score_empty; lia).
  rewrite !fmap_cons, IH. unfold scored. by rewrite lexical_score_empty.
Qed.

Lemma take_nonempty {A : Type} (n : nat) (l : list A) :
  (0 < n)%nat -> l <> [] -> take n l <> [].
Proof. intros Hn Hl H. apply take_nil_inv in H as [?|?]; [lia|done]. Qed.

(** C3, as amended. When no tool has a positive score the scorer returns
    the first [limit] tools of the registry, in registry order. The empty
    query is not such a case: every tool scores 3 for it, the ranking is
    the whole registry in registry order, and the result is the first
    [limit] tools all the same. So, without an index and with a registry
    that is not empty, a search never comes back empty. *)
Theorem fallback_first_tools (all_tools : list BaseTool) (query : string) (limit : Z) :
  let q := Str.lower (Str.strip query) in
  (rank_loop q all_tools = [] ->
   substring_search all_tools query limit = py_slice_to limit all_tools)
  /\ (q = "" ->
      rank_loop q all_tools = (fun t => (3, t)) <$> all_tools
      /\ substring_search all_tools query limit = py_slice_to limit all_tools)
  /\ (forall st k lim,
        _all_tools st = Some all_tools -> _vector_store st = None ->
        all_tools <> [] ->
        search_limit st k = Ret lim ->
        _search_tools st query lim <> []
        /\ (rank_loop q all_tools = [] ->
            _search_tools st query lim = take (Z.to_nat lim) all_tools)).
Proof.
  intros q. split; [|split].
  - intros H. unfold substring_search. fold q. rewrite H. simpl.
    by rewrite py_slice_to_nil.
  - intros Hq. rewrite Hq. split; [apply rank_loop_empty_query|].
    rewrite substring_search_eq. unfold rank_spec.
    rewrite strip_lower_comm. fold q. rewrite Hq, !by_score_empty_query.
    rewrite decide_True, !decide_False by lia. rewrite app_nil_r.
    by destruct (py_slice_to limit all_tools).
  - intros st k lim Ha Hv Hne Hk.
    pose proof (search_limit_range st k lim Hk) as Hl.
    rewrite (search_tools_absent st all_tools) by done. split.
    + destruct (substring_search_cases all_tools query lim)
        as [[Hr ->]|[[Hr ->]|[? _]]]; [lia| | |lia];
        apply take_nonempty; (lia || done).
    + intros H. unfold substring_search. fold q. rewrite H. simpl.
      rewrite py_slice_to_nil. apply py_slice_to_nonneg. lia.
Qed.

(** ** The session life cycle *)

Lemma set_up_ready (st : Session) (tools : list BaseTool) : ready (set_up st tools).
Proof.
  unfold set_up. destruct (build_vector_index _ _) as [e v].
  unfold ready; simpl; eauto.
Qed.

Lemma run_plain (st : Session) (r : Request) :
  ready st -> (forall negative, k r <> PyFloat (FInf negative)) ->
  returned (parse_input (tool_input r)) = true ->
  exists reply, (run st r).1 = Ret reply.
Proof.
  intros H Hk Hp. destruct (run st r).1 as [reply|e] eqn:E; [by exists reply|].
  destruct (run_ready st r H) as [_ He].
  destruct (He e E) as [_ [[_ Hl]|(_ & _ & Hx)]].
  - apply clamp_k_raises in Hl as [_ [negative Hl]]. by destruct (Hk negative).
  - by rewrite Hx in Hp.
Qed.

(** The agent loop keeps a ready session ready, and lets through only the
    exceptions of the hub. *)
Lemma invoke_agent_ready (agent : Agent) (st : Session) :
  ready st ->
  ready (_invoke_agent_on_query agent st).2
  /\ (forall e, (_invoke_agent_on_query agent st).1 = Raise e -> hub_exception e).
Proof.
  revert st. induction agent as [response | r next IH]; intros st Hr; simpl.
  - done.
  - destruct (run_ready st r Hr) as [Hr' _].
    pose proof (run_raises st r) as He.
    destruct (run st r) as [[reply|e] st1]; simpl in *.
    + by apply IH.
    + split; [done|]. intros x [= <-]. by apply He.
Qed.

(** An agent of plain requests gets its answer. *)
Lemma invoke_agent_plain (agent : Agent) (st : Session) :
  ready st -> plain_requests agent ->
  exists response, (_invoke_agent_on_query agent st).1 = Ret response.
Proof.
  revert st. induction agent as [response | r next IH]; intros st Hr Hp; simpl.
  - by exists response.
  - destruct Hp as (Hk & Hi & Hn).
    destruct (run_plain st r Hr Hk Hi) as [reply E].
    destruct (run_ready st r Hr) as [Hr' _].
    destruct (run st r) as [[reply'|e] st1]; simpl in *; [|done].
    by apply IH.
Qed.

Lemma process_query_set_up (st : Session) (agent : Agent) :
  ready st ->
  let ran := _invoke_agent_on_query agent (set_active_tools (Some []) st) in
  (process_query st agent).2 = ran.2
  /\ ready ran.2
  /\ (process_query st agent).1
     = match ran.1 with
       | Ret response => Ret (response, default [] (active_names ran.2))
       | Raise e => Raise e
       end.
Proof.
  intros ([all Ha] & Hm & Hact) ran. unfold process_query. rewrite Ha.
  destruct (invoke_agent_ready agent (set_active_tools (Some []) st)) as [Hr _].
  { unfold ready. simpl. rewrite Ha. eauto. }
  fold ran in Hr |- *. destruct ran as [[response|e] st']; simpl in *.
  - unfold active_names. pose proof Hr as (_ & _ & [active Hact']).
    rewrite Hact'. done.
  - done.
Qed.

(** C8. [process_query] on a session that was never set up, or that was
    torn down, raises the [RuntimeError] "process_query called before
    set_up" and leaves every attribute as it was; the active tools are not
    reset. After [set_up] it does not raise this error, nor any other
    exception of the class [RuntimeError] itself: it returns the agent's
    response with the names of the active tools exactly when the agent
    loop returns, which it does for every agent of plain requests whatever
    the tools do (a failing tool is reported inside a reply); the
    exceptions it lets through are those of the hub, [OverflowError] from
    the conversion of [k] and [ValueError] or [RecursionError] (a subclass
    of [RuntimeError], with another message) from [json.loads]. *)
Theorem process_query_contract (st : Session) (agent : Agent) :
  (forall settings log,
     process_query (init settings log) agent
     = (Raise contract_error, init settings log))
  /\ process_query (tear_down st) agent = (Raise contract_error, tear_down st)
  /\ (_all_tools st = None -> process_query st agent = (Raise contract_error, st))
  /\ (forall tools,
        let out := process_query (set_up st tools) agent in
        let ran := _invoke_agent_on_query agent
                     (set_active_tools (Some []) (set_up st tools)) in
        ready out.2
        /\ out.2 = ran.2
        /\ out.1 = match ran.1 with
                   | Ret response => Ret (response, default [] (active_names out.2))
                   | Raise e => Raise e
                   end
        /\ out.1 <> Raise contract_error
        /\ (forall msg, out.1 <> Raise (RuntimeError msg))
        /\ (forall e, out.1 = Raise e -> hub_exception e)
        /\ (plain_requests agent ->
            exists response,
              out.1 = Ret (response, default [] (active_names out.2))))
  /\ (forall tools,
        process_query (tear_down (set_up st tools)) agent
        = (Raise contract_error, tear_down (set_up st tools))).
Proof.
  split; [done|]. split; [done|].
  split; [intros H; unfold process_query; by rewrite H|].
  split; [|done].
  intros tools out ran.
  destruct (process_query_set_up (set_up st tools) agent (set_up_ready st tools))
    as (H2 & Hr & H1).
  fold out in H1, H2. fold ran in H1, H2, Hr.
  assert (forall e, out.1 = Raise e -> hub_exception e) as He.
  { intros e E. rewrite H1 in E.
    destruct (invoke_agent_ready agent (set_active_tools (Some []) (set_up st tools)))
      as [_ Hx].
    { destruct (set_up_ready st tools) as (Ha & Hm & _). unfold ready. simpl. eauto. }
    fold ran in Hx. destruct ran.1 as [response|x]; [done|].
    apply Hx. by injection E as ->. }
  split; [by rewrite H2|]. split; [done|].
  split; [by rewrite H1, H2|].
  split; [intros E; by destruct (He _ E) as [?|[?|?]]|].
  split; [intros msg E; by destruct (He _ E) as [?|[?|?]]|].
  split; [done|].
  intros Hp.
  destruct (invoke_agent_plain agent (set_active_tools (Some []) (set_up st tools)))
    as [response E]; [|done|].
  { destruct (set_up_ready st tools) as (Ha & Hm & _). unfold ready. simpl. eauto. }
  fold ran in E. exists response. by rewrite H1, E, H2.
Qed.

(** ** Names of the active tools without repetition *)

Lemma names_filter_NoDup (P : BaseTool -> Prop) `{forall t, Decision (P t)}
    (l : list BaseTool) :
  NoDup (name <$> l) -> NoDup (name <$> filter P l).
Proof.
  intros Hl. eapply sublist_NoDup; [exact Hl|].
  apply fmap_sublist, sublist_filter.
Qed.

Lemma names_take_NoDup (n : nat) (l : list BaseTool) :
  NoDup (name <$> l) -> NoDup (name <$> take n l).
Proof.
  intros Hl. eapply sublist_NoDup; [exact Hl|].
  apply fmap_sublist, sublist_take.
Qed.

Lemma names_slice_NoDup (n : Z) (l : list BaseTool) :
  NoDup (name <$> l) -> NoDup (name <$> py_slice_to n l).
Proof. unfold py_slice_to. destruct (0 <=? n); apply names_take_NoDup. Qed.

Lemma names_inj (l : list BaseTool) (t u : BaseTool) :
  NoDup (name <$> l) -> t ∈ l -> u ∈ l -> name t = name u -> t = u.
Proof.
  induction l as [|x l IH]; intros Hl Ht Hu E.
  - by apply elem_of_nil in Ht.
  - rewrite fmap_cons in Hl. apply NoDup_cons in Hl as [Hx Hl].
    apply elem_of_cons in Ht as [->|Ht], Hu as [->|Hu]; [done| | |by apply IH].
    + exfalso. apply Hx. rewrite E. by apply list_elem_of_fmap_2.
    + exfalso. apply Hx. rewrite <- E. by apply list_elem_of_fmap_2.
Qed.

Lemma buckets_disjoint (q : string) (s1 s2 : Z) (l : list BaseTool) (n : string) :
  NoDup (name <$> l) -> s1 <> s2 ->
  n ∈ name <$> by_score q s1 l -> n ∉ name <$> by_score q s2 l.
Proof.
  intros Hl Hs H1 H2.
  apply list_elem_of_fmap in H1 as (t & -> & Ht), H2 as (u & E & Hu).
  apply list_elem_of_filter in Ht as [St Ht], Hu as [Su Hu].
  assert (t = u) by (by apply (names_inj l)). subst u. lia.
Qed.

Lemma rank_spec_NoDup (all_tools : list BaseTool) (query : string) :
  NoDup (name <$> all_tools) -> NoDup (name <$> rank_spec all_tools query).
Proof.
  intros Hl. unfold rank_spec. rewrite !fmap_app.
  apply NoDup_app. split; [by apply names_filter_NoDup|]. split.
  - intros n Hn. rewrite not_elem_of_app.
    split; by apply (buckets_disjoint _ 3 _ all_tools).
  - apply NoDup_app. split; [by apply names_filter_NoDup|].
    split; [|by apply names_filter_NoDup].
    intros n Hn. by apply (buckets_disjoint _ 2 _ all_tools).
Qed.

Lemma substring_search_NoDup (all_tools : list BaseTool) (query : string) (limit : Z) :
  NoDup (name <$> all_tools) ->
  NoDup (name <$> substring_search all_tools query limit).
Proof.
  intros Hl. rewrite substring_search_eq.
  pose proof (names_slice_NoDup limit _ (rank_spec_NoDup all_tools query Hl)) as H.
  destruct (py_slice_to limit (rank_spec all_tools query)); [|done].
  by apply names_slice_NoDup.
Qed.

(** Without an index, distinct names in the registry give distinct names
    in every search. *)
Lemma absent_index_distinct (st : Session) (all_tools : list BaseTool) :
  _all_tools st = Some all_tools -> _vector_store st = None ->
  NoDup (name <$> all_tools) -> distinct_matches st.
Proof.
  intros Ha Hv Hl served query limit.
  rewrite (search_tools_absent (set_store_queries served st) all_tools) by done.
  by apply substring_search_NoDup.
Qed.

Lemma fresh_tools_NoDup (active matches : list BaseTool) :
  NoDup (name <$> active) -> NoDup (name <$> matches) ->
  NoDup (name <$> (active ++ fresh_tools (name <$> active) matches)%list).
Proof.
  intros Ha Hm. rewrite fmap_app. apply NoDup_app.
  split; [done|]. split; [|by apply names_filter_NoDup].
  intros n Hn Hf. apply list_elem_of_fmap in Hf as (t & -> & Ht).
  apply list_elem_of_filter in Ht as [Ht _]. done.
Qed.

Lemma register_NoDup (tool : BaseTool) (active : list BaseTool) :
  NoDup (name <$> active) -> NoDup (name <$> register tool active).
Proof.
  intros Ha. unfold register. destruct (decide _) as [Hin|Hin]; [done|].
  rewrite fmap_app. apply NoDup_app. split; [done|].
  split; [|apply NoDup_singleton].
  intros n Hn Hs. apply list_elem_of_singleton in Hs. by subst.
Qed.

(** [_search_tools] reads the registry, the tool map, the store and what
    the store has served, and nothing else. *)
Lemma search_tools_ext (st st' : Session) (query : string) (limit : Z) :
  _all_tools st' = _all_tools st -> _tool_map st' = _tool_map st ->
  _vector_store st' = _vector_store st -> store_queries st' = store_queries st ->
  _search_tools st' query limit = _search_tools st query limit.
Proof.
  intros Ha Hm Hv Hq. unfold _search_tools, vector_search.
  by rewrite Ha, Hm, Hv, Hq.
Qed.

Lemma search_tools_frame (st : Session) (a : option (list BaseTool))
    (query : string) (limit : Z) :
  _search_tools (set_active_tools a st) query limit = _search_tools st query limit.
Proof. done. Qed.

Lemma search_tools_log (st : Session) (n query : string) (limit : Z) :
  _search_tools (_log_tool_usage n st) query limit = _search_tools st query limit.
Proof. unfold _log_tool_usage. by destruct (tool_log st). Qed.

Lemma set_store_queries_same (st : Session) :
  set_store_queries (store_queries st) st = st.
Proof. by destruct st. Qed.

Lemma distinct_matches_ext (st st' : Session) :
  _all_tools st' = _all_tools st -> _tool_map st' = _tool_map st ->
  _vector_store st' = _vector_store st ->
  distinct_matches st -> distinct_matches st'.
Proof.
  intros Ha Hm Hv Hd served query limit.
  rewrite (search_tools_ext (set_store_queries served st)) by done. apply Hd.
Qed.

Lemma distinct_matches_now (st : Session) (query : string) (limit : Z) :
  distinct_matches st -> NoDup (name <$> _search_tools st query limit).
Proof.
  intros Hd. rewrite <- (set_store_queries_same st) at 1. apply Hd.
Qed.

Lemma log_tool_usage_fields (n : string) (st : Session) :
  _settings (_log_tool_usage n st) = _settings st
  /\ _all_tools (_log_tool_usage n st) = _all_tools st
  /\ _tool_map (_log_tool_usage n st) = _tool_map st
  /\ _active_tools (_log_tool_usage n st) = _active_tools st
  /\ _vector_store (_log_tool_usage n st) = _vector_store st
  /\ _embeddings (_log_tool_usage n st) = _embeddings st
  /\ store_queries (_log_tool_usage n st) = store_queries st.
Proof. unfold _log_tool_usage. by destruct (tool_log st). Qed.

(** One hub call keeps the active names distinct, provided the searches
    return distinct names. *)
Lemma run_distinct (st : Session) (r : Request) :
  ready st -> distinct_matches st -> active_distinct st ->
  distinct_matches (run st r).2 /\ active_distinct (run st r).2.
Proof.
  intros (Ht & [tm Hm] & _) Hd (active & Ha & Hn). unfold run.
  destruct (_ || _ || _ || _).
  - destruct (search_limit st (k r)) as [limit|e] eqn:E.
    + rewrite (handle_search_eq st _ _ active limit Ha E). simpl.
      destruct (record_query_fields (query r) limit st) as (_ & Et & Em & _ & Ev & _).
      split.
      * by apply (distinct_matches_ext st).
      * eexists. split; [done|].
        apply fresh_tools_NoDup; [done|by apply distinct_matches_now].
    + rewrite (handle_search_raise st _ _ e E). simpl.
      split; [done|by exists active].
  - destruct (_ || _); [|split; [done|by exists active]].
    destruct (tm !! tool_name r) as [tool|] eqn:E.
    + destruct (parse_input (tool_input r)) as [parsed|e] eqn:P.
      * rewrite (handle_call_known st tm tool active _ _ parsed) by done. simpl.
        split.
        -- destruct (log_tool_usage_fields (name tool)
                       (set_active_tools (Some (register tool active)) st))
             as (_ & Et & Em & _ & Ev & _).
           by apply (distinct_matches_ext st).
        -- exists (register tool active). rewrite log_tool_usage_active.
           split; [done|]. by apply register_NoDup.
      * rewrite (handle_call_raises st tm tool _ _ e) by done. simpl.
        split; [done|by exists active].
    + rewrite (handle_call_unknown st tm) by done. simpl.
      split; [done|by exists active].
Qed.

(** Through a whole run of the agent the names of the active tools stay
    pairwise distinct, provided every search of the session returns tools
    of pairwise distinct names (as it does without an index when the names
    of the registry are distinct, see [absent_index_distinct]). *)
Theorem agent_run_distinct (agent : Agent) (st : Session) :
  ready st -> distinct_matches st -> active_distinct st ->
  active_distinct (_invoke_agent_on_query agent st).2.
Proof.
  revert st. induction agent as [response | r next IH]; intros st Hr Hd Ha; simpl.
  - done.
  - destruct (run_ready st r Hr) as [Hr' _].
    destruct (run_distinct st r Hr Hd Ha) as [Hd' Ha'].
    destruct (run st r) as [[reply|e] st1]; simpl in *; [|done].
    by apply IH.
Qed.

(** ** What a search can return *)

Lemma py_slice_to_elem {A : Type} (n : Z) (l : list A) (x : A) :
  x ∈ py_slice_to n l -> x ∈ l.
Proof.
  unfold py_slice_to. destruct (0 <=? n); intros H;
    apply elem_of_take in H as (i & Hi & _); by eapply list_elem_of_lookup_2.
Qed.

Lemma substring_search_subset (all_tools : list BaseTool) (query : string)
    (limit : Z) (t : BaseTool) :
  t ∈ substring_search all_tools query limit -> t ∈ all_tools.
Proof.
  rewrite substring_search_eq.
  destruct (py_slice_to limit (rank_spec all_tools query)) as [|u top] eqn:E.
  - apply py_slice_to_elem.
  - rewrite <- E. intros H. apply py_slice_to_elem in H.
    by apply rank_spec_elem in H as [H _].
Qed.

Lemma resolve_elem (tm : gmap string BaseTool) (results : list (option string))
    (t : BaseTool) :
  t ∈ resolve tm results <-> exists n, Some n ∈ results /\ tm !! n = Some t.
Proof.
  unfold resolve. rewrite list_elem_of_omap. split.
  - intros ([n|] & Hin & Hl); [|done]. by exists n.
  - intros (n & Hin & Hl). by exists (Some n).
Qed.

(** [_search_tools] in closed form, for a session with a store. *)
Lemma search_tools_store (st : Session) (all_tools : list BaseTool)
    (tm : gmap string BaseTool) (store : VectorStore) (query : string) (limit : Z) :
  _all_tools st = Some all_tools -> all_tools <> [] ->
  _tool_map st = Some tm -> _vector_store st = Some store ->
  _search_tools st query limit
  = match store (store_queries st) query limit with
    | None => substring_search all_tools query limit
    | Some results =>
        match resolve tm results with
        | [] => substring_search all_tools query limit
        | known => known
        end
    end.
Proof.
  intros Ha Hne Hm Hs. unfold _search_tools, vector_search.
  rewrite Ha, Hs, Hm. destruct all_tools as [|a l]; [done|].
  destruct (store (store_queries st) query limit) as [[|d results]|]; try done.
Qed.

Lemma search_tools_no_store (st : Session) (query : string) (limit : Z) :
  _search_tools (without_store st) query limit
  = match _all_tools st with
    | Some all_tools => substring_search all_tools query limit
    | None => []
    end.
Proof.
  unfold _search_tools, vector_search. simpl.
  destruct (_all_tools st) as [[|a l]|]; try done.
  unfold substring_search, rank_loop. simpl. by rewrite !py_slice_to_nil.
Qed.

Lemma search_tools_elem (st : Session) (all_tools : list BaseTool)
    (query : string) (limit : Z) (t : BaseTool) :
  _all_tools st = Some all_tools ->
  _tool_map st = Some (build_tool_map all_tools) ->
  t ∈ _search_tools st query limit -> t ∈ all_tools.
Proof.
  intros Ha Hm. destruct (decide (all_tools = [])) as [->|Hne].
  { unfold _search_tools. rewrite Ha. by intros ?%elem_of_nil. }
  destruct (_vector_store st) as [store|] eqn:Hs.
  - rewrite (search_tools_store st all_tools _ store) by done.
    destruct (store (store_queries st) query limit) as [results|];
      [|apply substring_search_subset].
    destruct (resolve _ results) as [|u known] eqn:E; [apply substring_search_subset|].
    rewrite <- E. intros (n & _ & Hl)%resolve_elem.
    by apply build_tool_map_Some in Hl as [_ Hl].
  - rewrite (search_tools_absent st all_tools) by done.
    apply substring_search_subset.
Qed.

(** Whatever the store answers, a search returns tools of the registry
    only, and each of them can be called by its name: the tool map holds a
    tool of that name. *)
Theorem search_results_registered (st : Session) (all_tools : list BaseTool)
    (query : string) (limit : Z) (t : BaseTool) :
  _all_tools st = Some all_tools ->
  _tool_map st = Some (build_tool_map all_tools) ->
  t ∈ _search_tools st query limit ->
  t ∈ all_tools
  /\ exists u, build_tool_map all_tools !! name t = Some u /\ name u = name t.
Proof.
  intros Ha Hm Ht. pose proof (search_tools_elem st all_tools _ _ t Ha Hm Ht) as Hin.
  split; [done|].
  destruct (build_tool_map all_tools !! name t) as [u|] eqn:E.
  - exists u. split; [done|]. by apply build_tool_map_Some in E as [E _].
  - apply build_tool_map_None in E. exfalso. apply E.
    by apply list_elem_of_fmap_2.
Qed.

(** The answer of the store is used in its order, reduced to the names
    the tool map knows; a store that raises, or whose answer holds no
    known name, leaves the search as it is without a store. *)
Theorem store_answer_or_fallback (st : Session) (all_tools : list BaseTool)
    (tm : gmap string BaseTool) (store : VectorStore) (query : string) (limit : Z) :
  _all_tools st = Some all_tools -> all_tools <> [] ->
  _tool_map st = Some tm -> _vector_store st = Some store ->
  (store (store_queries st) query limit = None ->
   _search_tools st query limit = _search_tools (without_store st) query limit)
  /\ (forall results,
        store (store_queries st) query limit = Some results ->
        (resolve tm results = [] ->
         _search_tools st query limit = _search_tools (without_store st) query limit)
        /\ (resolve tm results <> [] ->
            _search_tools st query limit = resolve tm results)
        /\ (forall t, t ∈ resolve tm results ->
                      exists n, Some n ∈ results /\ tm !! n = Some t)).
Proof.
  intros Ha Hne Hm Hs.
  rewrite (search_tools_store st all_tools tm store) by done.
  rewrite search_tools_no_store, Ha. split.
  - by intros ->.
  - intros results ->. split; [by intros ->|]. split.
    + by destruct (resolve tm results).
    + intros t Ht. by apply resolve_elem.
Qed.

(** ** The empty registry *)

Lemma search_tools_empty (st : Session) (query : string) (limit : Z) :
  _all_tools st = Some [] -> _search_tools st query limit = [].
Proof. intros Ha. unfold _search_tools. by rewrite Ha. Qed.

(** After [set_up] with no tools the hub changes nothing: a search
    fetches nothing, whatever the store answers (it is not even asked),
    every call finds no tool, and the session stays as it is. A search
    whose [k] is an infinite float raises instead of replying, as in any
    session. *)
Theorem empty_registry_inert (st : Session) (r : Request) :
  let st0 := set_up st [] in
  (run st0 r).2 = st0
  /\ (is_search_request r ->
      (forall negative, k r <> PyFloat (FInf negative)) ->
      (run st0 r).1 = Ret (json_dumps (search_payload [] [])))
  /\ (is_search_request r ->
      (exists negative, k r = PyFloat (FInf negative)) ->
      (run st0 r).1 = Raise OverflowError)
  /\ (~ is_search_request r -> is_call_request r ->
      (run st0 r).1 = Ret (json_dumps (not_found_payload (tool_name r)))).
Proof.
  intros st0.
  assert (_all_tools st0 = Some []) as Ha
    by (subst st0; unfold set_up; by destruct (build_vector_index _ _)).
  assert (_tool_map st0 = Some ∅) as Hm
    by (subst st0; unfold set_up; by destruct (build_vector_index _ _)).
  assert (_active_tools st0 = Some []) as Hact
    by (subst st0; unfold set_up; by destruct (build_vector_index _ _)).
  assert (forall limit, search_limit st0 (k r) = Ret limit ->
            _handle_search st0 (query r) (k r)
            = (Ret (json_dumps (search_payload [] [])), st0)) as Hsearch.
  { intros limit Hl. rewrite (handle_search_eq st0 _ _ [] limit Hact Hl). simpl.
    rewrite search_tools_empty by done. unfold fresh_tools. simpl.
    rewrite record_query_empty by done.
    by rewrite set_active_tools_same. }
  assert (_handle_call st0 (tool_name r) (tool_input r)
          = (Ret (json_dumps (not_found_payload (tool_name r))), st0)) as Hcall
    by (by apply (handle_call_unknown st0 ∅)).
  destruct (search_request_dec r) as [Hs|Hs].
  - rewrite run_search by done.
    destruct (search_limit st0 (k r)) as [limit|e] eqn:E.
    + rewrite (Hsearch limit) by done. split; [done|]. split; [done|].
      split; [|done]. intros _ [negative Hk]. by rewrite Hk in E.
    + rewrite (handle_search_raise st0 _ _ e E). split; [done|].
      apply clamp_k_raises in E as [-> [negative Hk]].
      split; [intros _ Hn; by destruct (Hn negative)|]. done.
  - destruct (call_request_dec r) as [Hc|Hc].
    + rewrite run_call, Hcall by done. by repeat split.
    + rewrite run_invalid by done. by repeat split.
Qed.

(** ** Letter case and surrounding white space of the query *)

Lemma lower_char_idem (c : ascii) :
  Str.lower_char (Str.lower_char c) = Str.lower_char c.
Proof. destruct c as [[] [] [] [] [] [] [] []]; reflexivity. Qed.

Lemma lower_idem (s : string) : Str.lower (Str.lower s) = Str.lower s.
Proof.
  induction s as [|c s IH]; simpl; [done|]. by rewrite lower_char_idem, IH.
Qed.

Lemma lstrip_no_leading_space (s : string) : no_leading_space (Str.lstrip s).
Proof.
  induction s as [|c s IH]; simpl; [done|].
  destruct (Str.is_space c) eqn:E; [done|]. by simpl.
Qed.

Lemma lstrip_id (s : string) : no_leading_space s -> Str.lstrip s = s.
Proof. destruct s as [|c s]; simpl; [done|]. by intros ->. Qed.

Lemma rstrip_no_leading_space (s : string) :
  no_leading_space s -> no_leading_space (Str.rstrip s).
Proof.
  destruct s as [|c s]; simpl; [done|]. intros E.
  destruct (Str.rstrip s); simpl; [|done]. by rewrite E.
Qed.

Lemma rstrip_idem (s : string) : Str.rstrip (Str.rstrip s) = Str.rstrip s.
Proof.
  induction s as [|c s IH]; simpl; [done|].
  destruct (Str.rstrip s) as [|a r] eqn:E.
  - destruct (Str.is_space c) eqn:Ec; simpl; [done|]. by rewrite Ec.
  - simpl in *. by rewrite IH.
Qed.

Lemma strip_idem (s : string) : Str.strip (Str.strip s) = Str.strip s.
Proof.
  unfold Str.strip.
  rewrite (lstrip_id (Str.rstrip (Str.lstrip s)))
    by apply rstrip_no_leading_space, lstrip_no_leading_space.
  apply rstrip_idem.
Qed.

Lemma lstrip_space (c : ascii) (s : string) :
  Str.is_space c = true -> Str.strip (String c s) = Str.strip s.
Proof. intros E. unfold Str.strip. simpl. by rewrite E. Qed.

Lemma rstrip_app_space (s : string) (c : ascii) :
  Str.is_space c = true ->
  Str.rstrip (s +:+ String c EmptyString) = Str.rstrip s.
Proof.
  intros E. induction s as [|a s IH]; simpl.
  - by rewrite E.
  - by rewrite IH.
Qed.

Lemma strip_app_space (s : string) (c : ascii) :
  Str.is_space c = true ->
  Str.strip (s +:+ String c EmptyString) = Str.strip s.
Proof.
  intros E. unfold Str.strip.
  induction s as [|a s IH]; simpl.
  - by rewrite E.
  - destruct (Str.is_space a); [exact IH|].
    change (String a (s +:+ String c "")) with (String a s +:+ String c "").
    by apply rstrip_app_space.
Qed.

(** The substring search depends on the query through its normal form
    only: lowercasing the query, stripping it, or putting white space
    before or after it does not change the result. *)
Theorem search_ignores_case_and_padding (all_tools : list BaseTool)
    (query : string) (limit : Z) :
  substring_search all_tools (Str.lower query) limit
  = substring_search all_tools query limit
  /\ substring_search all_tools (Str.strip query) limit
     = substring_search all_tools query limit
  /\ (forall c, Str.is_space c = true ->
        substring_search all_tools (String c query) limit
        = substring_search all_tools query limit
        /\ substring_search all_tools (query +:+ String c EmptyString) limit
           = substring_search all_tools query limit)
  /\ (forall query',
        Str.lower (Str.strip query') = Str.lower (Str.strip query) ->
        substring_search all_tools query' limit
        = substring_search all_tools query limit).
Proof.
  assert (forall q q', Str.lower (Str.strip q') = Str.lower (Str.strip q) ->
            substring_search all_tools q' limit = substring_search all_tools q limit)
    as Hn by (intros q q' E; unfold substring_search; by rewrite E).
  split; [|split; [|split]].
  - apply Hn. by rewrite <- !strip_lower_comm, lower_idem.
  - apply Hn. by rewrite strip_idem.
  - intros c Hc. split; apply Hn.
    + by rewrite lstrip_space.
    + by rewrite strip_app_space.
  - exact (Hn query).
Qed.

(** ** The clamp once more *)

(** Clamping is idempotent and monotone: a clamped value passed again as
    [k] comes back unchanged whatever the default, and a larger integer
    [k] never gives a smaller limit. *)
Theorem clamp_k_idempotent_monotone (k : PyVal) (d d' : Z) :
  (forall limit, _clamp_k k d = Ret limit -> _clamp_k (PyInt limit) d' = Ret limit)
  /\ (forall z1 z2, z1 <= z2 ->
        exists l1 l2, _clamp_k (PyInt z1) d = Ret l1
                      /\ _clamp_k (PyInt z2) d' = Ret l2 /\ l1 <= l2)
  /\ (forall z, _clamp_k (PyInt z) d = _clamp_k (PyInt z) d'
                /\ _clamp_k (PyInt z) d = Ret (clamp z 1 50)).
Proof.
  split.
  - intros limit H. apply clamp_k_range in H.
    rewrite clamp_k_value. simpl. by rewrite clamp_id.
  - split.
    + intros z1 z2 Hz. exists (clamp z1 1 50), (clamp z2 1 50).
      rewrite !clamp_k_value. simpl. split; [done|]. split; [done|].
      unfold clamp. repeat case_match; lia.
    + intros z. by rewrite !clamp_k_value.
Qed.

(** ** Tools that share a name *)

(** The tool map keeps, for every name of the list, the last tool of that
    name: a later tool replaces an earlier one without any error, and no
    other name is a key. With pairwise distinct names every tool is found
    under its own name. *)
Theorem tool_map_last_wins (before after : list BaseTool) (t : BaseTool) :
  (name t ∉ name <$> after ->
   build_tool_map (before ++ t :: after) !! name t = Some t)
  /\ (forall tools n, is_Some (build_tool_map tools !! n) <-> n ∈ name <$> tools)
  /\ (forall tools u, NoDup (name <$> tools) -> u ∈ tools ->
        build_tool_map tools !! name u = Some u).
Proof.
  split; [|split].
  - intros Hn. rewrite build_tool_map_lookup, filter_app, filter_cons.
    rewrite decide_True by done.
    replace (filter (fun u => name u = name t) after) with (@nil BaseTool).
    + by rewrite last_snoc.
    + symmetry. apply elem_of_nil_inv. intros u Hu.
      apply list_elem_of_filter in Hu as [E Hu]. apply Hn. rewrite <- E.
      by apply list_elem_of_fmap_2.
  - intros tools n. rewrite <- not_eq_None_Some, build_tool_map_None.
    split; [apply dec_stable|intros H Hn; by apply Hn].
  - intros tools u Hd Hu.
    destruct (build_tool_map tools !! name u) as [v|] eqn:E.
    + apply build_tool_map_Some in E as [En Hv]. f_equal.
      by apply (names_inj tools).
    + apply build_tool_map_None in E. exfalso. apply E.
      by apply list_elem_of_fmap_2.
Qed.

(** ** What a hub call changes *)

Lemma same_setup_refl (st : Session) : same_setup st st.
Proof. by repeat split. Qed.

Lemma same_setup_trans (st1 st2 st3 : Session) :
  same_setup st1 st2 -> same_setup st2 st3 -> same_setup st1 st3.
Proof.
  intros (A1 & A2 & A3 & A4 & A5) (B1 & B2 & B3 & B4 & B5).
  repeat split; congruence.
Qed.

Lemma same_setup_active (a : option (list BaseTool)) (st : Session) :
  same_setup st (set_active_tools a st).
Proof. by repeat split. Qed.

Lemma log_extends_refl (st : Session) : log_extends st st.
Proof. unfold log_extends. by destruct (tool_log st). Qed.

Lemma log_extends_trans (st1 st2 st3 : Session) :
  log_extends st1 st2 -> log_extends st2 st3 -> log_extends st1 st3.
Proof.
  unfold log_extends.
  destruct (tool_log st1), (tool_log st2), (tool_log st3); try done.
  intros H1 H2. by etrans.
Qed.

Lemma active_extends_refl (st : Session) : active_extends st st.
Proof. unfold active_extends. by destruct (_active_tools st). Qed.

Lemma active_extends_trans (st1 st2 st3 : Session) :
  active_extends st1 st2 -> active_extends st2 st3 -> active_extends st1 st3.
Proof.
  unfold active_extends.
  destruct (_active_tools st1), (_active_tools st2), (_active_tools st3); try done.
  intros H1 H2. by etrans.
Qed.

Lemma log_tool_usage_effect (n : string) (st : Session) :
  same_setup st (_log_tool_usage n st)
  /\ _active_tools (_log_tool_usage n st) = _active_tools st
  /\ tool_log (_log_tool_usage n st)
     = (fun lines => (lines ++ [log_line n])%list) <$> tool_log st.
Proof. unfold _log_tool_usage. destruct (tool_log st) eqn:E; by rewrite ?E. Qed.

Lemma queries_extend_refl (st : Session) : queries_extend st st.
Proof. unfold queries_extend. done. Qed.

Lemma record_query_setup (query : string) (limit : Z) (st : Session) :
  same_setup st (record_query query limit st).
Proof.
  destruct (record_query_fields query limit st) as (E1 & E2 & E3 & _ & E4 & E5 & _).
  by repeat split.
Qed.

Lemma record_query_prefix (query : string) (limit : Z) (st : Session) :
  queries_extend st (record_query query limit st).
Proof.
  unfold queries_extend, record_query. destruct (store_consulted st); [|done].
  simpl. by apply prefix_app_r.
Qed.

Lemma handle_search_none (st : Session) (query : string) (k : PyVal) (limit : Z) :
  _active_tools st = None -> search_limit st k = Ret limit ->
  _handle_search st query k = (Raise TypeError, record_query query limit st).
Proof.
  intros Ha Hl. unfold _handle_search. rewrite Hl.
  destruct (record_query_fields query limit st) as (_ & _ & _ & -> & _).
  by rewrite Ha.
Qed.

Lemma handle_search_effect (st : Session) (query : string) (k : PyVal) :
  let st' := (_handle_search st query k).2 in
  same_setup st st' /\ active_extends st st' /\ tool_log st' = tool_log st
  /\ queries_extend st st'.
Proof.
  destruct (search_limit st k) as [limit|e] eqn:E.
  2:{ rewrite (handle_search_raise st query k e E). simpl.
      split; [apply same_setup_refl|]. split; [apply active_extends_refl|].
      split; [done|apply queries_extend_refl]. }
  destruct (record_query_fields query limit st) as (_ & _ & _ & Eact & _ & _ & Elog).
  destruct (_active_tools st) as [active|] eqn:Ha.
  - rewrite (handle_search_eq st query k active limit Ha E). simpl.
    split; [eapply same_setup_trans;
            [apply record_query_setup|apply same_setup_active]|].
    split; [|split; [done|apply record_query_prefix]].
    unfold active_extends. rewrite Ha. simpl. by apply prefix_app_r.
  - rewrite (handle_search_none st query k limit Ha E). simpl.
    split; [apply record_query_setup|].
    split; [unfold active_extends; by rewrite Eact, Ha|].
    split; [done|apply record_query_prefix].
Qed.

Lemma register_prefix (tool : BaseTool) (active : list BaseTool) :
  active `prefix_of` register tool active.
Proof. unfold register. destruct (decide _); [done|]. by apply prefix_app_r. Qed.

Lemma handle_call_effect (st : Session) (tool_name tool_input : string) :
  let st' := (_handle_call st tool_name tool_input).2 in
  same_setup st st' /\ active_extends st st' /\ log_extends st st'
  /\ store_queries st' = store_queries st.
Proof.
  assert (same_setup st st /\ active_extends st st /\ log_extends st st
          /\ store_queries st = store_queries st) as Hid
    by (split; [apply same_setup_refl|];
        split; [apply active_extends_refl|split; [apply log_extends_refl|done]]).
  destruct (_tool_map st) as [tm|] eqn:Hm;
    [|unfold _handle_call; by rewrite Hm].
  destruct (tm !! tool_name) as [tool|] eqn:Ht;
    [|by rewrite (handle_call_unknown st tm)].
  destruct (parse_input tool_input) as [parsed|e] eqn:Hp;
    [|by rewrite (handle_call_raises st tm tool _ _ e)].
  destruct (_active_tools st) as [active|] eqn:Ha;
    [|unfold _handle_call; by rewrite Hm, Ht, Hp, Ha].
  rewrite (handle_call_known st tm tool active _ _ parsed) by done. simpl.
  destruct (log_tool_usage_effect (name tool)
              (set_active_tools (Some (register tool active)) st))
    as (Hs & Hact & Hlog).
  split; [eapply same_setup_trans; [apply same_setup_active|exact Hs]|]. split.
  - unfold active_extends. rewrite Hact, Ha. simpl. apply register_prefix.
  - split.
    + unfold log_extends. rewrite Hlog. simpl.
      destruct (tool_log st); simpl; [|done]. by apply prefix_app_r.
    + by destruct (log_tool_usage_fields (name tool)
                     (set_active_tools (Some (register tool active)) st))
        as (_ & _ & _ & _ & _ & _ & ->).
Qed.

Lemma run_effect (st : Session) (r : Request) :
  same_setup st (run st r).2 /\ active_extends st (run st r).2
  /\ log_extends st (run st r).2 /\ queries_extend st (run st r).2.
Proof.
  unfold run. destruct (_ || _ || _ || _).
  - destruct (handle_search_effect st (query r) (k r)) as (H1 & H2 & H3 & H4).
    split; [done|]. split; [done|]. split; [|done]. unfold log_extends. rewrite H3.
    by destruct (tool_log st).
  - destruct (_ || _).
    + destruct (handle_call_effect st (tool_name r) (tool_input r))
        as (H1 & H2 & H3 & H4).
      split; [done|]. split; [done|]. split; [done|].
      unfold queries_extend. by rewrite H4.
    + simpl. split; [apply same_setup_refl|].
      split; [apply active_extends_refl|].
      split; [apply log_extends_refl|apply queries_extend_refl].
Qed.

Lemma agent_run_effect (agent : Agent) (st : Session) :
  let st' := (_invoke_agent_on_query agent st).2 in
  same_setup st st' /\ active_extends st st' /\ log_extends st st'
  /\ queries_extend st st'.
Proof.
  revert st. induction agent as [response | r next IH]; intros st; simpl.
  - split; [apply same_setup_refl|].
    split; [apply active_extends_refl|].
    split; [apply log_extends_refl|apply queries_extend_refl].
  - destruct (run_effect st r) as (H1 & H2 & H3 & H4).
    destruct (run st r) as [[reply|e] st1]; simpl in *; [|done].
    destruct (IH reply st1) as (K1 & K2 & K3 & K4).
    split; [by eapply same_setup_trans|].
    split; [by eapply active_extends_trans|].
    split; [by eapply log_extends_trans|]. unfold queries_extend in *. by etrans.
Qed.

Lemma process_query_effect (st : Session) (agent : Agent) :
  same_setup st (process_query st agent).2
  /\ log_extends st (process_query st agent).2
  /\ queries_extend st (process_query st agent).2.
Proof.
  unfold process_query. destruct (_all_tools st) eqn:Ha; simpl;
    [|split; [apply same_setup_refl|
              split; [apply log_extends_refl|apply queries_extend_refl]]].
  destruct (agent_run_effect agent (set_active_tools (Some []) st))
    as (H1 & _ & H3 & H4).
  destruct (_invoke_agent_on_query agent _) as [[response|e] st']; simpl in *;
    [destruct (_active_tools st')|]; simpl; done.
Qed.

(** A hub call, whatever the request and whatever the state of the
    session, leaves the settings, the registry, the tool map, the store and
    the embeddings as they are; the active tools and the usage log only
    grow at their end, and so do the calls the store has served. The same
    holds for a whole query, except that the query starts from no active
    tool. *)
Theorem hub_call_frame (st : Session) (r : Request) (agent : Agent) :
  (same_setup st (run st r).2
   /\ active_extends st (run st r).2
   /\ log_extends st (run st r).2
   /\ queries_extend st (run st r).2)
  /\ (same_setup st (process_query st agent).2
      /\ log_extends st (process_query st agent).2
      /\ queries_extend st (process_query st agent).2).
Proof.
  split; [apply run_effect|apply process_query_effect].
Qed.

(** The usage log gets one line, [[TOOL] name], for every call of a
    registered tool that gets past [json.loads]: the line is written before
    the tool is invoked and so whether the invocation succeeds or fails.
    When [json.loads] raises anything but [JSONDecodeError] the call is left
    before the line is written, and the whole session stays as it was. A
    search, a call of an unknown tool and an invalid action write nothing;
    without a log nothing is written. *)
Theorem usage_log_lines (st : Session) (tm : gmap string BaseTool)
    (active : list BaseTool) (r : Request) :
  _tool_map st = Some tm -> _active_tools st = Some active ->
  tool_log (run st r).2
  = match tool_log st with
    | None => None
    | Some lines =>
        if decide (is_search_request r) then Some lines
        else if decide (is_call_request r) then
          match tm !! tool_name r with
          | Some tool =>
              match parse_input (tool_input r) with
              | Ret _ => Some (lines ++ [log_line (name tool)])%list
              | Raise _ => Some lines
              end
          | None => Some lines
          end
        else Some lines
    end
  /\ (~ is_search_request r -> is_call_request r ->
      forall tool e,
        tm !! tool_name r = Some tool -> parse_input (tool_input r) = Raise e ->
        run st r = (Raise e, st)).
Proof.
  intros Hm Ha. split.
  - destruct (decide (is_search_request r)) as [Hs|Hs].
    + rewrite run_search by done.
      destruct (handle_search_effect st (query r) (k r)) as (_ & _ & -> & _).
      by destruct (tool_log st).
    + destruct (decide (is_call_request r)) as [Hc|Hc].
      * rewrite run_call by done.
        destruct (tm !! tool_name r) as [tool|] eqn:Ht.
        -- destruct (parse_input (tool_input r)) as [parsed|e] eqn:Hp.
           ++ rewrite (handle_call_known st tm tool active _ _ parsed) by done.
              simpl.
              destruct (log_tool_usage_effect (name tool)
                          (set_active_tools (Some (register tool active)) st))
                as (_ & _ & ->). simpl. by destruct (tool_log st).
           ++ rewrite (handle_call_raises st tm tool _ _ e) by done. simpl.
              by destruct (tool_log st).
        -- rewrite (handle_call_unknown st tm) by done. simpl.
           by destruct (tool_log st).
      * rewrite run_invalid by done. simpl. by destruct (tool_log st).
  - intros Hs Hc tool e Ht Hp. rewrite run_call by done.
    by apply (handle_call_raises st tm tool).
Qed.

(** ** Asking twice *)

Lemma fresh_tools_again (active matches : list BaseTool) :
  fresh_tools (name <$> (active ++ fresh_tools (name <$> active) matches)%list) matches
  = [].
Proof.
  apply elem_of_nil_inv. intros t Ht. unfold fresh_tools in Ht at 1.
  apply list_elem_of_filter in Ht as [Hn Ht]. apply Hn.
  rewrite fmap_app, elem_of_app.
  destruct (decide (name t ∈ name <$> active)) as [Hin|Hin]; [by left|right].
  apply list_elem_of_fmap_2. unfold fresh_tools. by apply list_elem_of_filter.
Qed.

Lemma register_again (tool : BaseTool) (active : list BaseTool) :
  register tool (register tool active) = register tool active.
Proof.
  unfold register at 1. by rewrite decide_True by apply register_elem.
Qed.

Lemma search_limit_setup (st st' : Session) (k : PyVal) :
  same_setup st st' -> search_limit st' k = search_limit st k.
Proof. intros (E & _). unfold search_limit. by rewrite E. Qed.

(** With a steady store a search depends on the set-up only. *)
Lemma search_tools_steady (st st' : Session) (query : string) (limit : Z) :
  steady_store st -> same_setup st st' ->
  _search_tools st' query limit = _search_tools st query limit.
Proof.
  intros Hs (_ & E1 & E2 & E3 & _). unfold _search_tools, vector_search.
  rewrite E1, E2, E3. unfold steady_store in Hs.
  destruct (_vector_store st) as [store|]; [|done].
  by rewrite (Hs (store_queries st') (store_queries st)).
Qed.

Lemma steady_store_setup (st st' : Session) :
  same_setup st st' -> steady_store st -> steady_store st'.
Proof. intros (_ & _ & _ & E & _). unfold steady_store. by rewrite E. Qed.

Lemma absent_store_steady (st : Session) :
  _vector_store st = None -> steady_store st.
Proof. intros H. unfold steady_store. by rewrite H. Qed.

(** The second of two equal searches, when it gets the matches the first
    one got. *)
Lemma handle_search_again (st : Session) (query : string) (k : PyVal)
    (active : list BaseTool) (limit : Z) :
  _active_tools st = Some active -> search_limit st k = Ret limit ->
  let st1 := (_handle_search st query k).2 in
  _search_tools st1 query limit = _search_tools st query limit ->
  exists names,
    active_names st1 = Some names
    /\ _handle_search st1 query k
       = (Ret (json_dumps (search_payload [] names)), record_query query limit st1).
Proof.
  intros Ha Hl st1 Hsame.
  set (matches := _search_tools st query limit) in *.
  set (active1 := (active ++ fresh_tools (name <$> active) matches)%list).
  assert (st1 = set_active_tools (Some active1) (record_query query limit st)) as E1
    by (subst st1; by rewrite (handle_search_eq st query k active limit Ha Hl)).
  assert (_active_tools st1 = Some active1) as Ha1 by (by rewrite E1).
  assert (search_limit st1 k = Ret limit) as Hl1.
  { rewrite <- Hl. apply search_limit_setup. rewrite E1.
    eapply same_setup_trans; [apply record_query_setup|apply same_setup_active]. }
  exists (name <$> active1). split; [unfold active_names; by rewrite Ha1|].
  rewrite (handle_search_eq st1 query k active1 limit Ha1 Hl1).
  rewrite Hsame. subst active1. rewrite fresh_tools_again. simpl.
  rewrite app_nil_r. f_equal. apply set_active_tools_same.
  by destruct (record_query_fields query limit st1) as (_ & _ & _ & -> & _).
Qed.

(** A request sent a second time, right after the first, changes no
    active tool. For a call this holds as it stands. For a search it holds
    when the second search gets the matches the first one got, as it does
    with a steady store and without a store: the second reply then reports
    nothing as fetched and lists the same active names as the first; the
    session is left as it is, but for the call the store has served. A
    store that answers the second call differently can add tools. A search
    whose [k] is an infinite float raises both times and changes nothing. *)
Theorem repeated_request_adds_nothing (st : Session) (r : Request) :
  ready st ->
  let st1 := (run st r).2 in
  (~ is_search_request r -> _active_tools (run st1 r).2 = _active_tools st1)
  /\ (is_search_request r ->
      forall limit, search_limit st (k r) = Ret limit ->
        _search_tools st1 (query r) limit = _search_tools st (query r) limit ->
        exists names,
          active_names st1 = Some names
          /\ run st1 r = (Ret (json_dumps (search_payload [] names)),
                          record_query (query r) limit st1)
          /\ _active_tools (run st1 r).2 = _active_tools st1)
  /\ (steady_store st ->
      forall limit,
        _search_tools st1 (query r) limit = _search_tools st (query r) limit)
  /\ (is_search_request r -> _vector_store st = None ->
      forall limit, search_limit st (k r) = Ret limit ->
        exists names,
          active_names st1 = Some names
          /\ run st1 r = (Ret (json_dumps (search_payload [] names)), st1))
  /\ (is_search_request r ->
      forall e, search_limit st (k r) = Raise e ->
        st1 = st /\ run st1 r = (Raise e, st1)).
Proof.
  intros (_ & [tm Hm] & [active Ha]) st1.
  assert (forall limit, is_search_request r -> search_limit st (k r) = Ret limit ->
            _search_tools st1 (query r) limit = _search_tools st (query r) limit ->
            exists names,
              active_names st1 = Some names
              /\ run st1 r = (Ret (json_dumps (search_payload [] names)),
                              record_query (query r) limit st1)) as Hsearch.
  { intros limit Hs Hl Hsame. rewrite (run_search st1 r Hs).
    subst st1. rewrite (run_search st r Hs) in Hsame |- *.
    by apply (handle_search_again st (query r) (k r) active limit). }
  split.
  { intros Hs. subst st1.
    destruct (call_request_dec r) as [Hc|Hc]; [|by rewrite !(run_invalid _ r Hs Hc)].
    rewrite !(run_call _ r Hs Hc).
    destruct (tm !! tool_name r) as [tool|] eqn:Ht.
    - destruct (parse_input (tool_input r)) as [parsed|e] eqn:Hp.
      + rewrite (handle_call_known st tm tool active _ _ parsed) by done. simpl.
        set (st1 := _log_tool_usage (name tool)
                      (set_active_tools (Some (register tool active)) st)).
        destruct (log_tool_usage_effect (name tool)
                    (set_active_tools (Some (register tool active)) st))
          as ((_ & _ & Hm1 & _) & Hact & _). fold st1 in Hm1, Hact.
        simpl in Hm1, Hact.
        rewrite (handle_call_known st1 tm tool (register tool active) _ _ parsed)
          by (done || congruence).
        simpl. rewrite log_tool_usage_active. simpl.
        by rewrite register_again, Hact.
      + rewrite (handle_call_raises st tm tool _ _ e) by done. simpl.
        by rewrite (handle_call_raises st tm tool _ _ e).
    - rewrite (handle_call_unknown st tm) by done. simpl.
      by rewrite (handle_call_unknown st tm). }
  split.
  { intros Hs limit Hl Hsame. destruct (Hsearch limit Hs Hl Hsame) as (names & Hn & E).
    exists names. split; [done|]. split; [done|]. rewrite E. simpl.
    by destruct (record_query_fields (query r) limit st1) as (_ & _ & _ & -> & _). }
  split.
  { intros Hst limit. apply search_tools_steady; [done|]. apply run_effect. }
  split.
  { intros Hs Hv limit Hl.
    assert (_vector_store st1 = None) as Hv1.
    { destruct (run_effect st r) as ((_ & _ & _ & E & _) & _). fold st1 in E.
      by rewrite E. }
    destruct (Hsearch limit Hs Hl) as (names & Hn & E).
    { apply search_tools_steady; [by apply absent_store_steady|apply run_effect]. }
    exists names. split; [done|]. by rewrite E, record_query_absent. }
  intros Hs e He. subst st1. rewrite (run_search st r Hs).
  rewrite (handle_search_raise st _ _ e He). simpl. split; [done|].
  rewrite (run_search st r Hs). by apply handle_search_raise.
Qed.

(** ** Active tools are tools of the registry *)

Lemma run_registered (st : Session) (r : Request) :
  registered st -> registered (run st r).2.
Proof.
  intros (all & active & Ha & Hm & Hact & Hin).
  unfold run. destruct (_ || _ || _ || _).
  - destruct (search_limit st (k r)) as [limit|e] eqn:El.
    2:{ rewrite (handle_search_raise st _ _ e El). by exists all, active. }
    rewrite (handle_search_eq st _ _ active limit Hact El). simpl.
    destruct (record_query_fields (query r) limit st) as (_ & E1 & E2 & _).
    exists all, (active ++ fresh_tools (name <$> active)
                   (_search_tools st (query r) limit))%list.
    simpl. rewrite E1, E2. repeat split; try done.
    intros t [Ht|Ht]%elem_of_app; [by apply Hin|].
    apply list_elem_of_filter in Ht as [_ Ht].
    exact (search_tools_elem st all _ _ t Ha Hm Ht).
  - destruct (_ || _); [|by exists all, active].
    destruct (build_tool_map all !! tool_name r) as [tool|] eqn:Ht.
    + destruct (parse_input (tool_input r)) as [parsed|e] eqn:Hp.
      2:{ rewrite (handle_call_raises st _ tool _ _ e) by done.
          by exists all, active. }
      rewrite (handle_call_known st _ tool active _ _ parsed) by done. simpl.
      destruct (log_tool_usage_effect (name tool)
                  (set_active_tools (Some (register tool active)) st))
        as ((_ & E1 & E2 & _) & E3 & _).
      exists all, (register tool active).
      rewrite E1, E2, E3. simpl. repeat split; try done.
      unfold register. destruct (decide _); [done|].
      intros t [Hi|Hi]%elem_of_app; [by apply Hin|].
      apply list_elem_of_singleton in Hi as ->.
      by apply build_tool_map_Some in Ht as [_ Ht].
    + rewrite (handle_call_unknown st (build_tool_map all)) by done.
      by exists all, active.
Qed.

Lemma agent_run_registered (agent : Agent) (st : Session) :
  registered st -> registered (_invoke_agent_on_query agent st).2.
Proof.
  revert st. induction agent as [response | r next IH]; intros st Hr; simpl.
  - done.
  - pose proof (run_registered st r Hr) as Hr'.
    destruct (run st r) as [[reply|e] st1]; [|done]. by apply IH.
Qed.

Lemma set_up_registered (st : Session) (tools : list BaseTool) :
  registered (set_active_tools (Some []) (set_up st tools))
  /\ _all_tools (set_up st tools) = Some tools.
Proof.
  unfold set_up. destruct (build_vector_index _ _) as [e v]. simpl.
  split; [|done]. exists tools, []. repeat split; try done.
  by intros t ?%elem_of_nil.
Qed.

(** The names [process_query] reports were all found in the registry:
    after [set_up], whatever the agent asks and whatever the store
    answers, when [process_query] returns every retrieved name is the name
    of a registered tool, and a call by that name finds a tool. It returns
    for every agent of plain requests. *)
Theorem retrieved_names_registered (st : Session) (tools : list BaseTool)
    (agent : Agent) :
  (forall response retrieved st',
     process_query (set_up st tools) agent = (Ret (response, retrieved), st') ->
     (forall n, n ∈ retrieved ->
        n ∈ name <$> tools /\ is_Some (build_tool_map tools !! n))
     /\ active_names st' = Some retrieved
     /\ _all_tools st' = Some tools)
  /\ (plain_requests agent ->
      exists response retrieved st',
        process_query (set_up st tools) agent = (Ret (response, retrieved), st')).
Proof.
  split.
  - intros response retrieved st' E.
    destruct (set_up_registered st tools) as [Hreg Hall].
    pose proof (agent_run_registered agent _ Hreg) as Hr.
    destruct (agent_run_effect agent (set_active_tools (Some []) (set_up st tools)))
      as ((_ & Hsame & _) & _).
    unfold process_query in E. rewrite Hall in E.
    destruct (_invoke_agent_on_query agent _) as [[response'|e] st1]; [|done].
    simpl in Hr, Hsame.
    destruct Hr as (all & active & Ha & Hm & Hact & Hin). rewrite Hact in E.
    injection E as <- <- <-.
    simpl in Hsame. rewrite Hall, Ha in Hsame. injection Hsame as ->.
    split; [|split; [unfold active_names; by rewrite Hact|done]].
    intros n Hn. assert (n ∈ name <$> tools) as Hnt.
    { apply list_elem_of_fmap in Hn as (t & -> & Ht).
      by apply list_elem_of_fmap_2, Hin. }
    split; [done|].
    destruct (build_tool_map tools !! n) eqn:El; [done|].
    by apply build_tool_map_None in El.
  - intros Hp.
    destruct (process_query_set_up (set_up st tools) agent (set_up_ready st tools))
      as (_ & _ & H1).
    destruct (invoke_agent_plain agent (set_active_tools (Some []) (set_up st tools)))
      as [response E]; [|done|].
    { destruct (set_up_ready st tools) as (Ha & Hm & _). unfold ready. simpl. eauto. }
    rewrite E in H1.
    destruct (process_query (set_up st tools) agent) as [o st'] eqn:Eo.
    simpl in H1. subst o. by eexists _, _, st'.
Qed.

(** ** The shape of a reply *)

(** In a session that is set up every reply is the serialisation of one
    of five objects: for a search the keys mode, fetched and active; for a
    call the keys mode and error, or mode, tool and error, or mode, tool
    and result; for any other action the single key error. A request gets
    no reply in two cases only, in which the hub raises and leaves the
    session as it is: a search whose [k] is an infinite float, and a call
    of a registered tool on whose input [json.loads] raises something else
    than [JSONDecodeError]. *)
Theorem hub_reply_shape (st : Session) (r : Request) :
  ready st ->
  match (run st r).1 with
  | Ret reply =>
      exists payload,
        reply = json_dumps payload
        /\ hub_payload payload
        /\ (is_search_request r ->
            object_keys payload = ["mode"; "fetched"; "active"])
        /\ (~ is_search_request r -> is_call_request r ->
            object_keys payload = ["mode"; "error"]
            \/ object_keys payload = ["mode"; "tool"; "error"]
            \/ object_keys payload = ["mode"; "tool"; "result"])
        /\ (~ is_search_request r -> ~ is_call_request r ->
            object_keys payload = ["error"])
  | Raise e =>
      (run st r).2 = st
      /\ ((is_search_request r /\ e = OverflowError
           /\ exists negative, k r = PyFloat (FInf negative))
          \/ (~ is_search_request r /\ is_call_request r
              /\ (e = ValueError \/ e = RecursionError)
              /\ parse_input (tool_input r) = Raise e
              /\ exists tm, _tool_map st = Some tm /\ is_Some (tm !! tool_name r)))
  end
  /\ ((forall negative, k r <> PyFloat (FInf negative)) ->
      returned (parse_input (tool_input r)) = true ->
      returned (run st r).1 = true).
Proof.
  intros Hr. split.
  2:{ intros Hk Hp. destruct (run_plain st r Hr Hk Hp) as [reply ->]. done. }
  destruct Hr as (_ & [tm Hm] & [active Ha]).
  destruct (search_request_dec r) as [Hs|Hs].
  - rewrite run_search by done.
    destruct (search_limit st (k r)) as [limit|e] eqn:El.
    + rewrite (handle_search_eq st _ _ active limit Ha El). simpl.
      eexists. split; [reflexivity|]. split; [constructor|]. by repeat split.
    + rewrite (handle_search_raise st _ _ e El). simpl. split; [done|]. left.
      apply clamp_k_raises in El as [-> Hk]. done.
  - destruct (call_request_dec r) as [Hc|Hc].
    + rewrite run_call by done.
      destruct (tm !! tool_name r) as [tool|] eqn:Ht.
      * destruct (parse_input (tool_input r)) as [parsed|e] eqn:Hp.
        -- rewrite (handle_call_known st tm tool active _ _ parsed) by done. simpl.
           destruct (invoke tool _); eexists; (split; [reflexivity|]);
             (split; [constructor|]); repeat split; try done; intros; auto.
        -- rewrite (handle_call_raises st tm tool _ _ e) by done. simpl.
           split; [done|]. right. split; [done|]. split; [done|].
           split; [by apply parse_input_raises in Hp as (_ & x & _ & _ & ?)|].
           split; [done|]. exists tm. split; [done|]. by rewrite Ht.
      * rewrite (handle_call_unknown st tm) by done. simpl.
        eexists. split; [reflexivity|]. split; [constructor|].
        repeat split; try done; intros; auto.
    + rewrite run_invalid by done. simpl.
      eexists. split; [reflexivity|]. split; [constructor|]. by repeat split.
Qed.

(** ** The size of a search without index *)

Lemma rank_spec_length (all_tools : list BaseTool) (query : string) :
  (length (rank_spec all_tools query) <= length all_tools)%nat.
Proof.
  unfold rank_spec, by_score. rewrite !length_app.
  induction all_tools as [|t l IH]; [done|]. rewrite !(filter_cons _ t).
  repeat case_decide; simpl; lia.
Qed.

(** Without an index a search adds at most [limit] tools, so at most 50,
    and never more than the registry holds; what it adds are tools of the
    registry whose names were not active. *)
Theorem lexical_fetch_bounded (st : Session) (all_tools active : list BaseTool)
    (query : string) (k : PyVal) (limit : Z) :
  _all_tools st = Some all_tools -> _vector_store st = None ->
  _active_tools st = Some active ->
  search_limit st k = Ret limit ->
  exists fetched,
    _handle_search st query k
    = (Ret (json_dumps (search_payload (name <$> fetched)
                                       (name <$> (active ++ fetched)%list))),
       set_active_tools (Some (active ++ fetched)%list) st)
    /\ Z.of_nat (length fetched) <= limit <= 50
    /\ (length fetched <= length all_tools)%nat
    /\ (forall t, t ∈ fetched -> t ∈ all_tools /\ name t ∉ name <$> active).
Proof.
  intros Hall Hv Ha Hk.
  set (matches := _search_tools st query limit).
  exists (fresh_tools (name <$> active) matches).
  split.
  { rewrite (handle_search_eq st query k active limit Ha Hk).
    by rewrite record_query_absent. }
  pose proof (search_limit_range st k limit Hk) as Hl.
  assert (matches = substring_search all_tools query limit) as Hm
    by (by apply search_tools_absent).
  assert (Z.of_nat (length matches) <= limit) as Hlen.
  { rewrite Hm.
    destruct (substring_search_cases all_tools query limit)
      as [[_ ->]|[[_ ->]|[_ ->]]]; rewrite ?length_take; simpl; lia. }
  pose proof (length_filter (fun t => name t ∉ name <$> active) matches) as Hf.
  fold (fresh_tools (name <$> active) matches) in Hf.
  split; [lia|]. split.
  - assert (length matches <= length all_tools)%nat; [|lia].
    rewrite Hm, substring_search_eq.
    assert (forall l : list BaseTool,
              (length (py_slice_to limit l) <= length l)%nat) as Hs.
    { intros l. unfold py_slice_to. destruct (0 <=? _); rewrite length_take; lia. }
    destruct (py_slice_to _ (rank_spec _ _)) as [|u top] eqn:E; [apply Hs|].
    rewrite <- E. etrans; [apply Hs|]. apply rank_spec_length.
  - intros t Ht. apply list_elem_of_filter in Ht as [Hn Ht]. split; [|done].
    rewrite Hm in Ht. by apply substring_search_subset in Ht.
Qed.

(** ** The documents of the index *)

Lemma length_slice_to (n : Z) (s : string) :
  0 <= n -> Z.of_nat (String.length (Str.slice_to n s)) <= n.
Proof.
  intros Hn. unfold Str.slice_to. destruct (Z.leb_spec 0 n); [|lia].
  rewrite length_firstn. lia.
Qed.

Lemma resolve_cons (tm : gmap string BaseTool) (n : string)
    (results : list (option string)) :
  resolve tm (Some n :: results)
  = match tm !! n with
    | Some t => t :: resolve tm results
    | None => resolve tm results
    end.
Proof. reflexivity. Qed.

Lemma resolve_all (tools : list BaseTool) (results : list (option string)) :
  Forall (fun doc_name => exists t, t ∈ tools /\ doc_name = Some (name t)) results ->
  length (resolve (build_tool_map tools) results) = length results.
Proof.
  induction 1 as [|d results (t & Ht & ->) _ IH]; [done|].
  rewrite resolve_cons.
  destruct (build_tool_map tools !! name t) eqn:E; simpl; [by rewrite IH|].
  apply build_tool_map_None in E. exfalso. apply E. by apply list_elem_of_fmap_2.
Qed.

(** [_build_vector_index] hands the store one document per tool, in the
    order of the tools; the text of a document is "name: N | desc: D" cut
    at 2048 characters, and is that text in full when it is no longer;
    its metadata name is the tool's name, which the tool map of [set_up]
    resolves, so that no answer made of such names loses an entry in
    [_search_tools]. The method yields no store unless the embeddings were
    loaded, and then asks for the store exactly once. *)
Theorem index_documents (backend : IndexBackend) (MILVUS_URL : option string)
    (settings : IndexSettings) (tools : list BaseTool) :
  let docs := document_of <$> tools in
  metadata_name <$> docs = name <$> tools
  /\ (forall d, d ∈ docs -> Z.of_nat (String.length (page_content d)) <= 2048)
  /\ (forall t,
        let text := "name: " +:+ name t +:+ " | desc: " +:+ description t in
        (String.length text <= 2048)%nat -> page_content (document_of t) = text)
  /\ (forall d, d ∈ docs ->
        exists t, build_tool_map tools !! metadata_name d = Some t
                  /\ name t = metadata_name d)
  /\ (forall results,
        Forall (fun doc_name => exists d, d ∈ docs /\ doc_name = Some (metadata_name d))
               results ->
        length (resolve (build_tool_map tools) results) = length results)
  /\ (forall embeddings,
        HuggingFaceEmbeddings backend
          (default DEFAULT_EMBEDDING_MODEL (embedding_model_id settings))
        = Some embeddings ->
        _build_vector_index backend MILVUS_URL settings tools
        = (Some embeddings,
           from_documents backend docs embeddings
             (default DEFAULT_COLLECTION_NAME (collection_name settings))
             (milvus_uri MILVUS_URL)
             (default DEFAULT_DROP_OLD_COLLECTION (drop_old_collection settings))))
  /\ (HuggingFaceEmbeddings backend
        (default DEFAULT_EMBEDDING_MODEL (embedding_model_id settings)) = None ->
      _build_vector_index backend MILVUS_URL settings tools = (None, None))
  /\ milvus_uri MILVUS_URL <> "".
Proof.
  intros docs. split; [|split; [|split; [|split; [|split; [|split; [|split]]]]]].
  - subst docs. rewrite <- list_fmap_compose. done.
  - intros d (t & -> & _)%list_elem_of_fmap.
    change (page_content (document_of t))
      with (Str.slice_to MAX_EMBEDDING_TEXT_LENGTH
              ("name: " +:+ name t +:+ " | desc: " +:+ description t)).
    by apply length_slice_to.
  - intros t text Hlen.
    change (page_content (document_of t))
      with (Str.slice_to MAX_EMBEDDING_TEXT_LENGTH text).
    unfold Str.slice_to.
    destruct (Z.leb_spec 0 MAX_EMBEDDING_TEXT_LENGTH) as [_|Hneg];
      [|by unfold MAX_EMBEDDING_TEXT_LENGTH in Hneg].
    apply firstn_all. unfold MAX_EMBEDDING_TEXT_LENGTH. lia.
  - intros d (t & -> & Ht)%list_elem_of_fmap. simpl.
    destruct (build_tool_map tools !! name t) as [u|] eqn:E.
    + exists u. split; [done|]. by apply build_tool_map_Some in E as [E _].
    + apply build_tool_map_None in E. exfalso. apply E.
      by apply list_elem_of_fmap_2.
  - intros results Hr. apply resolve_all.
    eapply Forall_impl; [exact Hr|]. simpl.
    intros doc_name (d & (t & -> & Ht)%list_elem_of_fmap & ->). by exists t.
  - intros e He. unfold _build_vector_index. by rewrite He.
  - intros He. unfold _build_vector_index. by rewrite He.
  - unfold milvus_uri. destruct MILVUS_URL as [[|c u]|]; done.
Qed.

(** ** Missing settings *)

Lemma run_settings (s1 s2 : Settings) (st : Session) (r : Request) :
  default DEFAULT_SEARCH_K (default_search_k s1)
  = default DEFAULT_SEARCH_K (default_search_k s2) ->
  default DEFAULT_MAX_RESULT_CHARS (max_result_chars s1)
  = default DEFAULT_MAX_RESULT_CHARS (max_result_chars s2) ->
  (run (with_settings s1 st) r).1 = (run (with_settings s2 st) r).1
  /\ (run (with_settings s2 st) r).2 = with_settings s2 (run (with_settings s1 st) r).2.
Proof.
  intros Hk Hc. destruct st as [s all tm act vs emb log served].
  unfold run, with_settings. simpl.
  destruct (_ || _ || _ || _).
  - unfold _handle_search, search_limit. simpl. rewrite Hk.
    destruct (_clamp_k _ _) as [limit|e]; [|done].
    unfold record_query, store_consulted. simpl.
    destruct all as [[|t l]|], vs as [store|]; simpl;
      (destruct act as [active|]; [|done]); simpl;
      try (set (m := merge_loop _ _ _); destruct m as [a n]); done.
  - destruct (_ || _); [|done].
    unfold _handle_call. simpl. destruct tm as [tm|]; [|done].
    destruct (tm !! tool_name r) as [tool|]; [|done].
    destruct (parse_input (tool_input r)) as [parsed|e]; [|done].
    destruct act as [active|]; [|done].
    destruct (decide _); unfold _log_tool_usage; simpl;
      destruct log; simpl; rewrite Hc; destruct (invoke tool _); done.
Qed.

(** A key missing from the settings acts as the value that
    [get_default_settings] gives it: with no settings at all the hub
    replies and changes the session exactly as with the default settings,
    a search without [k] uses the limit 8, and the index is built as with
    the default index settings. *)
Theorem missing_settings_act_as_defaults (st : Session) (r : Request)
    (backend : IndexBackend) (MILVUS_URL : option string) (tools : list BaseTool) :
  let none := {| default_search_k := None; max_result_chars := None |} in
  (run (with_settings none st) r).1 = (run (with_settings get_default_settings st) r).1
  /\ (run (with_settings get_default_settings st) r).2
     = with_settings get_default_settings (run (with_settings none st) r).2
  /\ search_limit (with_settings none st) PyNone = Ret 8
  /\ _build_vector_index backend MILVUS_URL
       {| embedding_model_id := None; collection_name := None;
          drop_old_collection := None |} tools
     = _build_vector_index backend MILVUS_URL get_default_index_settings tools.
Proof.
  intros none.
  destruct (run_settings none get_default_settings st r eq_refl eq_refl) as [H1 H2].
  by repeat split.
Qed.

(** ** One query after another *)

Lemma same_setup_sym (st st' : Session) : same_setup st st' -> same_setup st' st.
Proof. intros (E1 & E2 & E3 & E4 & E5). by repeat split. Qed.

Lemma log_apart_step (st st' a b : Session) :
  same_setup st st' -> same_setup st a -> same_setup st' b ->
  _active_tools b = _active_tools a -> log_apart a b.
Proof.
  intros H Ha Hb Hact. split; [|done].
  apply (same_setup_trans a st b); [by apply same_setup_sym|].
  by apply (same_setup_trans st st' b).
Qed.

Lemma handle_search_log_apart (st st' : Session) (query : string) (k : PyVal) :
  steady_store st -> log_apart st st' ->
  (_handle_search st' query k).1 = (_handle_search st query k).1
  /\ log_apart (_handle_search st query k).2 (_handle_search st' query k).2.
Proof.
  intros Hs [Hsetup Hact].
  pose proof (search_limit_setup st st' k Hsetup) as Hl.
  destruct (search_limit st k) as [limit|e] eqn:E.
  2:{ rewrite (handle_search_raise st query k e E).
      by rewrite (handle_search_raise st' query k e Hl). }
  pose proof (search_tools_steady st st' query limit Hs Hsetup) as Hm.
  destruct (record_query_fields query limit st) as (_ & _ & _ & A1 & _).
  destruct (record_query_fields query limit st') as (_ & _ & _ & A2 & _).
  destruct (_active_tools st) as [active|] eqn:Ha.
  - rewrite (handle_search_eq st query k active limit Ha E).
    rewrite (handle_search_eq st' query k active limit) by congruence.
    rewrite Hm. simpl. split; [done|].
    apply (log_apart_step st st'); try done.
    + eapply same_setup_trans; [apply record_query_setup|apply same_setup_active].
    + eapply same_setup_trans; [apply record_query_setup|apply same_setup_active].
  - rewrite (handle_search_none st query k limit Ha E).
    rewrite (handle_search_none st' query k limit) by congruence.
    simpl. split; [done|].
    apply (log_apart_step st st'); try done; try apply record_query_setup.
    congruence.
Qed.

Lemma handle_call_log_apart (st st' : Session) (tool_name tool_input : string) :
  log_apart st st' ->
  (_handle_call st' tool_name tool_input).1 = (_handle_call st tool_name tool_input).1
  /\ log_apart (_handle_call st tool_name tool_input).2
               (_handle_call st' tool_name tool_input).2.
Proof.
  intros H. pose proof H as [Hsetup Hact]. pose proof Hsetup as (Es & _ & Em & _).
  unfold _handle_call. rewrite Em, Hact.
  destruct (_tool_map st) as [tm|]; [|by split].
  destruct (tm !! tool_name) as [tool|]; [|by split].
  destruct (parse_input tool_input) as [parsed|e]; [|by split].
  destruct (_active_tools st) as [active|] eqn:Ha; [|by split].
  set (a := if decide (name tool ∈ (list_to_set (name <$> active) : gset string))
            then st else set_active_tools (Some (active ++ [tool])%list) st).
  set (b := if decide (name tool ∈ (list_to_set (name <$> active) : gset string))
            then st' else set_active_tools (Some (active ++ [tool])%list) st').
  assert (log_apart (_log_tool_usage (name tool) a) (_log_tool_usage (name tool) b))
    as Hlog.
  { destruct (log_tool_usage_effect (name tool) a) as (Sa & Aa & _).
    destruct (log_tool_usage_effect (name tool) b) as (Sb & Ab & _).
    apply (log_apart_step st st'); try done.
    - eapply same_setup_trans; [|exact Sa]. subst a.
      destruct (decide _); [apply same_setup_refl|apply same_setup_active].
    - eapply same_setup_trans; [|exact Sb]. subst b.
      destruct (decide _); [apply same_setup_refl|apply same_setup_active].
    - rewrite Aa, Ab. subst a b. destruct (decide _); simpl; congruence. }
  assert (_settings (_log_tool_usage (name tool) b)
          = _settings (_log_tool_usage (name tool) a)) as ->
    by (by destruct Hlog as [(E & _) _]).
  by destruct (invoke tool parsed).
Qed.

Lemma run_log_apart (st st' : Session) (r : Request) :
  steady_store st -> log_apart st st' ->
  (run st' r).1 = (run st r).1 /\ log_apart (run st r).2 (run st' r).2.
Proof.
  intros Hs H. unfold run. destruct (_ || _ || _ || _).
  - by apply handle_search_log_apart.
  - destruct (_ || _); [by apply handle_call_log_apart|by split].
Qed.

Lemma agent_run_log_apart (agent : Agent) (st st' : Session) :
  steady_store st -> log_apart st st' ->
  (_invoke_agent_on_query agent st').1 = (_invoke_agent_on_query agent st).1
  /\ log_apart (_invoke_agent_on_query agent st).2 (_invoke_agent_on_query agent st').2.
Proof.
  revert st st'. induction agent as [response | r next IH]; intros st st' Hs H; simpl.
  - done.
  - destruct (run_log_apart st st' r Hs H) as [E1 E2].
    pose proof (steady_store_setup st (run st r).2 (proj1 (run_effect st r)) Hs) as Hs1.
    destruct (run st r) as [o1 st1], (run st' r) as [o2 st2]. simpl in *. subst o2.
    destruct o1 as [reply|e]; [by apply IH|done].
Qed.

(** With a store that answers a call the same way whatever it has served
    before, and so without a store, a query does not depend on the queries
    before it: sessions with the same settings, registry, tool map, store
    and embeddings give the same answer and the same retrieved names,
    whatever their active tools, their usage logs and the calls their
    store has served; in particular a query asked after another one gets
    what it would have got in its place. *)
Theorem queries_are_independent (st : Session) (agent : Agent) :
  steady_store st ->
  (forall st', same_setup st st' ->
     (process_query st' agent).1 = (process_query st agent).1)
  /\ (forall earlier,
        (process_query (process_query st earlier).2 agent).1
        = (process_query st agent).1).
Proof.
  intros Hst.
  assert (forall st', same_setup st st' ->
            (process_query st' agent).1 = (process_query st agent).1) as H.
  { intros st' Hs. unfold process_query.
    pose proof Hs as (E1 & E2 & E3 & E4 & E5). rewrite E2.
    destruct (_all_tools st) eqn:Ea; [|done].
    destruct (agent_run_log_apart agent (set_active_tools (Some []) st)
                (set_active_tools (Some []) st')) as [F1 (_ & F2)].
    { exact Hst. }
    { split; [|done].
      eapply same_setup_trans; [apply same_setup_sym, same_setup_active|].
      eapply same_setup_trans; [exact Hs|apply same_setup_active]. }
    destruct (_invoke_agent_on_query agent (set_active_tools (Some []) st))
      as [o1 st1],
      (_invoke_agent_on_query agent (set_active_tools (Some []) st'))
      as [o2 st2]. simpl in *. subst o2. rewrite F2.
    destruct o1; [by destruct (_active_tools st1)|done]. }
  split; [exact H|]. intros earlier. apply H. apply process_query_effect.
Qed.

(** ** The hub after [tear_down] *)

(** [tear_down] puts every attribute back to what [__init__] set, and
    doing it twice changes nothing more. A hub kept from before it is of
    no use: a search raises [TypeError] (or, when its [k] is an infinite
    float, [OverflowError] on the line before) and a call
    [AttributeError], all before anything is changed; only the reply to an
    invalid action is still given. *)
Theorem hub_after_tear_down (st : Session) (r : Request) :
  let torn := tear_down st in
  torn = init (_settings st) (tool_log st)
  /\ tear_down torn = torn
  /\ (is_search_request r -> (forall negative, k r <> PyFloat (FInf negative)) ->
      run torn r = (Raise TypeError, torn))
  /\ (is_search_request r -> (exists negative, k r = PyFloat (FInf negative)) ->
      run torn r = (Raise OverflowError, torn))
  /\ (~ is_search_request r -> is_call_request r ->
      run torn r = (Raise AttributeError, torn))
  /\ (~ is_search_request r -> ~ is_call_request r ->
      run torn r = (Ret (json_dumps invalid_action_payload), torn)).
Proof.
  intros torn. split; [done|]. split; [done|]. split; [|split; [|split]].
  - intros Hs Hk. rewrite run_search by done.
    destruct (search_limit torn (k r)) as [limit|e] eqn:E.
    + by rewrite (handle_search_none torn _ _ limit).
    + apply clamp_k_raises in E as [_ [negative E]]. by destruct (Hk negative).
  - intros Hs [negative Hk]. rewrite run_search by done.
    apply handle_search_raise. by rewrite Hk.
  - intros Hs Hc. by rewrite run_call.
  - intros Hs Hc. by rewrite run_invalid.
Qed.

(** ** Searching, then calling *)

(** A name that a search reports as fetched can be called right away: the
    call finds a tool of that name and, once [json.loads] is through with
    the input, replies with that name and the tool's result or error, never
    with "not found", and adds no active tool, the tool being active
    already. When [json.loads] raises anything but [JSONDecodeError] the
    call raises it and changes nothing. *)
Theorem fetched_tools_are_callable (st : Session) (all_tools active : list BaseTool)
    (query : string) (k : PyVal) (limit : Z) (n tool_input : string) :
  _all_tools st = Some all_tools ->
  _tool_map st = Some (build_tool_map all_tools) ->
  _active_tools st = Some active ->
  search_limit st k = Ret limit ->
  let st1 := (_handle_search st query k).2 in
  n ∈ name <$> fresh_tools (name <$> active) (_search_tools st query limit) ->
  exists tool,
    build_tool_map all_tools !! n = Some tool /\ name tool = n
    /\ (forall parsed, parse_input tool_input = Ret parsed ->
          (_handle_call st1 n tool_input).1
          = Ret (json_dumps
                   match invoke tool parsed with
                   | Failed msg => call_error_payload n msg
                   | Returned result =>
                       call_result_payload n
                         (Str.slice_to
                            (default DEFAULT_MAX_RESULT_CHARS
                                     (max_result_chars (_settings st)))
                            (stringify result))
                   end))
    /\ (forall e, parse_input tool_input = Raise e ->
          _handle_call st1 n tool_input = (Raise e, st1))
    /\ _active_tools (_handle_call st1 n tool_input).2 = _active_tools st1.
Proof.
  intros Ha Hm Hact Hl st1 Hn.
  set (matches := _search_tools st query limit) in *.
  set (fresh := fresh_tools (name <$> active) matches) in *.
  assert (st1 = set_active_tools (Some (active ++ fresh)%list)
                  (record_query query limit st)) as ->
    by (subst st1; by rewrite (handle_search_eq st query k active limit Hact Hl)).
  destruct (record_query_fields query limit st) as (Es & _ & Em & _).
  apply list_elem_of_fmap in Hn as (t & -> & Ht).
  assert (t ∈ all_tools) as Hin.
  { apply list_elem_of_filter in Ht as [_ Ht].
    exact (search_tools_elem st all_tools _ _ t Ha Hm Ht). }
  destruct (build_tool_map all_tools !! name t) as [tool|] eqn:E.
  2:{ apply build_tool_map_None in E. exfalso. apply E.
      by apply list_elem_of_fmap_2. }
  destruct (build_tool_map_Some _ _ _ E) as [En _].
  exists tool. split; [done|]. split; [done|].
  set (st1 := set_active_tools (Some (active ++ fresh)%list)
                (record_query query limit st)).
  assert (_tool_map st1 = Some (build_tool_map all_tools)) as Hm1
    by (subst st1; simpl; by rewrite Em).
  assert (forall parsed, parse_input tool_input = Ret parsed ->
            _handle_call st1 (name t) tool_input
            = (Ret (json_dumps
                      match invoke tool parsed with
                      | Failed msg => call_error_payload (name t) msg
                      | Returned result =>
                          call_result_payload (name t)
                            (Str.slice_to
                               (default DEFAULT_MAX_RESULT_CHARS
                                        (max_result_chars (_settings st)))
                               (stringify result))
                      end),
               _log_tool_usage (name tool) st1)) as Hcall.
  { intros parsed Hp.
    rewrite (handle_call_known st1 (build_tool_map all_tools) tool
               (active ++ fresh)%list _ _ parsed) by done.
    simpl. rewrite En, Es. f_equal. f_equal.
    unfold register. rewrite decide_True; [done|].
    rewrite En, fmap_app, elem_of_app. right. by apply list_elem_of_fmap_2. }
  split; [intros parsed Hp; by rewrite (Hcall parsed Hp)|].
  split; [intros e He; by apply (handle_call_raises st1 (build_tool_map all_tools) tool)|].
  destruct (parse_input tool_input) as [parsed|e] eqn:Hp.
  - rewrite (Hcall parsed eq_refl). simpl. by rewrite log_tool_usage_active.
  - by rewrite (handle_call_raises st1 (build_tool_map all_tools) tool _ _ e).
Qed.

(** ** What the score counts *)

Lemma append_cons (c : ascii) (a b : string) :
  String c a +:+ b = String c (a +:+ b).
Proof. reflexivity. Qed.

Lemma startswith_spec (p s : string) :
  Str.startswith p s = true <-> exists b, s = p +:+ b.
Proof.
  revert s. induction p as [|a p IH]; intros s; simpl.
  - split; [by exists s|done].
  - destruct s as [|c s]; simpl.
    + split; [done|]. intros [b Hb]. by rewrite append_cons in Hb.
    + destruct (Ascii.eqb_spec a c) as [->|Hne].
      * rewrite IH. split; intros [b Hb]; exists b;
          rewrite append_cons in *; congruence.
      * split; [done|]. intros [b Hb]. rewrite append_cons in Hb. congruence.
Qed.

Lemma contains_spec (q s : string) :
  Str.contains q s = true <-> exists a b, s = a +:+ q +:+ b.
Proof.
  induction s as [|c s IH]; simpl.
  - rewrite orb_false_r, startswith_spec. split.
    + intros [b Hb]. by exists "", b.
    + intros (a & b & H). destruct a as [|x a]; [by exists b|].
      by rewrite append_cons in H.
  - rewrite orb_true_iff, startswith_spec, IH. split.
    + intros [[b Hb]|(a & b & H)].
      * by exists "", b.
      * exists (String c a), b. rewrite append_cons. by rewrite H.
    + intros (a & b & H). destruct a as [|x a].
      * left. by exists b.
      * right. exists a, b. rewrite append_cons in H. congruence.
Qed.

(** The score of a tool is 2 when the normalised query occurs in the
    lowercased name, that is when the name splits into a prefix, the query
    and a suffix, plus 1 when it occurs so in the lowercased description;
    a tool is ranked exactly when one of the two holds. *)
Theorem score_counts_occurrences (q : string) (t : BaseTool) :
  let in_name := exists a b, Str.lower (name t) = a +:+ q +:+ b in
  let in_description := exists a b, Str.lower (description t) = a +:+ q +:+ b in
  (lexical_score q t = 3 <-> in_name /\ in_description)
  /\ (lexical_score q t = 2 <-> in_name /\ ~ in_description)
  /\ (lexical_score q t = 1 <-> ~ in_name /\ in_description)
  /\ (lexical_score q t = 0 <-> ~ in_name /\ ~ in_description)
  /\ (0 < lexical_score q t <-> in_name \/ in_description).
Proof.
  intros in_name in_description. subst in_name in_description.
  rewrite <- !contains_spec. unfold lexical_score.
  destruct (Str.contains q (Str.lower (name t))),
           (Str.contains q (Str.lower (description t))); simpl;
    clear; repeat split; intros; try done; try lia;
    repeat match goal with
           | H : _ /\ _ |- _ => destruct H
           | H : _ \/ _ |- _ => destruct H
           end; try done; auto.
Qed.

(** ** A negative [max_result_chars] *)

(** A negative [max_result_chars] does not bound the reply: the slice
    then drops that many characters from the end of the result, so a
    result of [n] characters keeps [n + max_result_chars] of them, or
    none when that is negative. *)
Theorem negative_max_chars_drops_tail (st : Session) (tm : gmap string BaseTool)
    (tool : BaseTool) (active : list BaseTool) (tool_name tool_input : string)
    (parsed : ToolInput) (result : PyResult) (max_chars : Z) :
  _tool_map st = Some tm -> tm !! tool_name = Some tool ->
  _active_tools st = Some active ->
  parse_input tool_input = Ret parsed ->
  invoke tool parsed = Returned result ->
  max_result_chars (_settings st) = Some max_chars -> max_chars < 0 ->
  exists field,
    (_handle_call st tool_name tool_input).1
    = Ret (json_dumps (call_result_payload (name tool) field))
    /\ Z.of_nat (String.length field)
       = Z.max 0 (Z.of_nat (String.length (stringify result)) + max_chars)
    /\ Str.startswith field (stringify result) = true.
Proof.
  intros Hm Ht Ha Hp Hi Hs Hneg.
  rewrite (handle_call_known st tm tool active _ _ parsed) by done.
  rewrite Hi, Hs. simpl.
  eexists. split; [reflexivity|]. unfold Str.slice_to.
  destruct (Z.leb_spec 0 max_chars); [lia|]. split.
  - rewrite length_firstn. lia.
  - generalize (String.length (stringify result) - Z.to_nat (- max_chars))%nat.
    intros n. revert n. induction (stringify result) as [|c s IH]; intros [|n];
      simpl; try done. by rewrite Ascii.eqb_refl.
Qed.

End Hub.

(** ** The model on the sample registry *)

(** Requests that are not searches are refuted by running the test of
    line 207. *)
Ltac not_a_search :=
  let H := fresh in
  intros H; apply (proj2 (search_test_iff _ _)) in H;
  vm_compute in H; discriminate H.

Ltac not_a_call :=
  let H := fresh in
  intros H; apply (proj2 (call_test_iff _ _)) in H;
  vm_compute in H; discriminate H.

Ltac is_ready := unfold ready; simpl; eauto.

(** The sample sessions are what [set_up] builds. *)
Lemma sample_session_is_set_up :
  Sample.session
  = set_up Sample.no_index (init get_default_settings (Some [])) Sample.registry
  /\ Sample.stale_session
     = set_up Sample.stale_index (init get_default_settings None) Sample.registry.
Proof. split; reflexivity. Qed.

(** [json.loads] on 4301 digits raises [ValueError], which is no
    [JSONDecodeError]; on 4300 digits it returns the number. *)
Example sample_loads_digit_limit :
  Sample.loads_numbers (Sample.ones 4301) = LoadsRaised TooManyDigits
  /\ parse_input Sample.loads_numbers (Sample.ones 4301) = Raise ValueError
  /\ returned (parse_input Sample.loads_numbers (Sample.ones 4300)) = true
  /\ parse_input Sample.loads_numbers "12" = Ret (InParsed (JNum 12))
  /\ parse_input Sample.loads_numbers "{" = Ret (InRaw "{").
Proof. repeat split; vm_compute; reflexivity. Qed.

(** C1 at three requests: a search synonym in capitals, an action that is
    neither a search nor a call, and a call on whose input [json.loads]
    raises. *)
Lemma run_routing_witness :
  run Sample.loads_nothing Sample.dumps Sample.session
      (mkRequest " Find " "file" PyNone "" "")
  = _handle_search Sample.dumps Sample.session "file" PyNone
  /\ run Sample.loads_nothing Sample.dumps Sample.session
         (mkRequest "list" "file" PyNone "" "")
     = (Ret (Sample.dumps invalid_action_payload), Sample.session)
  /\ (run Sample.loads_numbers Sample.dumps Sample.session
          (mkRequest "call" "" PyNone "read_file" (Sample.ones 4301))).1
     = Raise ValueError
  /\ (run Sample.loads_numbers Sample.dumps Sample.session
          (mkRequest "call" "" PyNone "read_file" (Sample.ones 4301))).2
     = Sample.session.
Proof.
  split; [|split; [|split]].
  - apply (proj1 (run_routing Sample.loads_nothing Sample.dumps Sample.session
                              (mkRequest " Find " "file" PyNone "" ""))).
    left. apply list_elem_of_further, list_elem_of_here.
  - apply (proj1 (proj2 (proj2
             (run_routing Sample.loads_nothing Sample.dumps Sample.session
                          (mkRequest "list" "file" PyNone "" ""))))).
    + not_a_search.
    + not_a_call.
  - vm_compute. reflexivity.
  - destruct (run_routing Sample.loads_numbers Sample.dumps Sample.session
                (mkRequest "call" "" PyNone "read_file" (Sample.ones 4301)))
      as (_ & _ & _ & H & _).
    apply (H ltac:(is_ready) ValueError). vm_compute. reflexivity.
Defined.

(** C2 on the sample registry: for [search] the tool matched by name and
    description comes first, the tool matched by name only second, the tool
    matched by description only third, although it stands before the
    second in the registry. *)
Lemma lexical_ranking_witness :
  0 <= 5
  /\ substring_search Sample.registry " SEARCH" 5
     = [Sample.web_search; Sample.search_docs; Sample.send_email]
  /\ (1 < 2)%nat.
Proof.
  split; [lia|]. split; [reflexivity|].
  assert (0 <= 5) as H5 by lia.
  refine (proj1 (proj2 (proj2 (proj2 (proj2 (proj2
            (lexical_ranking Sample.registry " SEARCH" 5 H5)))))
            Sample.search_docs Sample.send_email _ _) 1%nat 2%nat _ _);
    first [split; reflexivity | reflexivity].
Defined.

(** C3, the empty query: every tool of the registry is ranked, with
    score 3, so the ranking is not empty; the result is still the head of
    the registry. *)
Lemma empty_query_ranks_every_tool :
  rank_loop (Str.lower (Str.strip "")) Sample.registry
  = [(3, Sample.web_search); (3, Sample.read_file);
     (3, Sample.send_email); (3, Sample.search_docs)]
  /\ rank_loop (Str.lower (Str.strip "")) Sample.registry <> []
  /\ substring_search Sample.registry "" 2 = [Sample.web_search; Sample.read_file].
Proof. split; [reflexivity|]. split; [discriminate|reflexivity]. Qed.

(** C3 at a query that matches nothing. *)
Lemma fallback_first_tools_witness :
  rank_loop (Str.lower (Str.strip "zzz")) Sample.registry = []
  /\ substring_search Sample.registry "zzz" 2 = [Sample.web_search; Sample.read_file]
  /\ search_limit Sample.session (PyInt 0) = Ret 1
  /\ _search_tools Sample.session "zzz" 1 <> [].
Proof.
  split; [reflexivity|]. split; [|split; [reflexivity|]].
  - apply (proj1 (fallback_first_tools Sample.registry "zzz" 2)). reflexivity.
  - apply (proj2 (proj2 (fallback_first_tools Sample.registry "zzz" 2))
             Sample.session (PyInt 0) 1);
      [reflexivity|reflexivity|discriminate|reflexivity].
Defined.





(** C5. One search can put the same name among the active tools twice:
    [existing_names] is computed before the loop of lines 140-143 and is
    not extended inside it, so two matches of one name both pass the test.
    It happens when the index returns two documents of one name, with a
    registry of distinct names, and when two tools of the registry share a
    name. *)
Theorem one_search_can_repeat_a_name :
  NoDup (name <$> Sample.registry)
  /\ (let out := run Sample.loads_nothing Sample.dumps Sample.stale_session
                     (mkRequest "search" "read a file" PyNone "" "") in
      out.1 = Ret (Sample.dumps (search_payload ["read_file"; "read_file"]
                                                ["read_file"; "read_file"]))
      /\ active_names out.2 = Some ["read_file"; "read_file"])
  /\ (let out := run Sample.loads_nothing Sample.dumps Sample.twin_session
                     (mkRequest "search" "read" PyNone "" "") in
      out.1 = Ret (Sample.dumps (search_payload ["read_file"; "read_file"]
                                                ["read_file"; "read_file"]))
      /\ active_names out.2 = Some ["read_file"; "read_file"]).
Proof.
  split; [|split; split; reflexivity].
  compute_done.
Qed.

(** C6 at a name that is not registered. *)
Lemma call_unknown_tool_witness :
  run Sample.loads_nothing Sample.dumps Sample.session
      (mkRequest "call" "" PyNone "nope" "{}")
  = (Ret (Sample.dumps (not_found_payload "nope")), Sample.session).
Proof.
  refine (proj1 (call_unknown_tool Sample.loads_nothing Sample.dumps Sample.session
                   (build_tool_map Sample.registry)
                   (mkRequest "call" "" PyNone "nope" "{}") eq_refl _ _ _)).
  - vm_compute. reflexivity.
  - not_a_search.
  - left. reflexivity.
Defined.

(** C7 with [max_result_chars] 4 and a result of ten characters. *)
Lemma call_result_truncated_witness :
  exists field,
    (_handle_call Sample.loads_nothing Sample.dumps Sample.short_session "read_file" "").1
    = Ret (Sample.dumps (call_result_payload "read_file" field))
    /\ field = "0123"
    /\ Z.of_nat (String.length field) = 4.
Proof.
  destruct (call_result_truncated Sample.loads_nothing Sample.dumps
              Sample.short_session (build_tool_map Sample.registry)
              Sample.read_file [] "read_file" "" (InRaw "") (ResOther "0123456789"))
    as (field & H1 & H2 & H3 & _).
  - reflexivity.
  - vm_compute. reflexivity.
  - reflexivity.
  - reflexivity.
  - reflexivity.
  - simpl. lia.
  - exists field. split; [exact H1|]. split; [exact H2|].
    apply H3. simpl. lia.
Defined.

(** C9 at the tool whose invocation fails: the error payload, and the
    tool among the active ones. *)
Lemma call_failure_keeps_tool_active_witness :
  (_handle_call Sample.loads_nothing Sample.dumps Sample.session "send_email" "").1
  = Ret (Sample.dumps (call_error_payload "send_email" "smtp down"))
  /\ active_names
       (_handle_call Sample.loads_nothing Sample.dumps Sample.session "send_email" "").2
     = Some ["send_email"].
Proof.
  destruct (call_failure_keeps_tool_active Sample.loads_nothing Sample.dumps
              Sample.session Sample.registry [] Sample.send_email
              "send_email" "" (InRaw ""))
    as (_ & _ & _ & H4 & _ & H6 & _).
  - reflexivity.
  - vm_compute. reflexivity.
  - reflexivity.
  - reflexivity.
  - split; [apply (H6 "smtp down"); reflexivity|].
    apply H4. simpl. apply not_elem_of_nil.
Defined.

(** C9 at a tool whose invocation returns: it is active and logged just
    the same. *)
Example call_success_registers_tool :
  active_names
    (_handle_call Sample.loads_nothing Sample.dumps Sample.session "read_file" "").2
  = Some ["read_file"]
  /\ tool_log
       (_handle_call Sample.loads_nothing Sample.dumps Sample.session "read_file" "").2
     = Some ["[TOOL] read_file"]
  /\ _handle_call Sample.loads_numbers Sample.dumps Sample.session "read_file"
                  (Sample.ones 4301)
     = (Raise ValueError, Sample.session).
Proof. repeat split; vm_compute; reflexivity. Qed.

Lemma sample_agent_plain : plain_requests Sample.loads_nothing Sample.agent.
Proof. simpl. repeat split; try discriminate. Qed.

(** C8 before [set_up], after [tear_down], and after [set_up]. *)
Lemma process_query_contract_witness :
  process_query Sample.loads_nothing Sample.dumps
                (init get_default_settings None) Sample.agent
  = (Raise contract_error, init get_default_settings None)
  /\ process_query Sample.loads_nothing Sample.dumps
                   (tear_down Sample.session) Sample.agent
     = (Raise contract_error, tear_down Sample.session)
  /\ (process_query Sample.loads_nothing Sample.dumps
                    (set_up Sample.no_index (init get_default_settings (Some []))
                            Sample.registry)
                    Sample.agent).1
     <> Raise contract_error
  /\ returned
       (process_query Sample.loads_nothing Sample.dumps
                      (set_up Sample.no_index (init get_default_settings (Some []))
                              Sample.registry)
                      Sample.agent).1
     = true.
Proof.
  split; [|split; [|split]].
  - apply (proj1 (proj2 (proj2
             (process_query_contract Sample.loads_nothing Sample.dumps Sample.no_index
                (init get_default_settings None) Sample.agent)))).
    reflexivity.
  - apply (proj1 (proj2
             (process_query_contract Sample.loads_nothing Sample.dumps Sample.no_index
                Sample.session Sample.agent))).
  - destruct (process_query_contract Sample.loads_nothing Sample.dumps Sample.no_index
                (init get_default_settings (Some [])) Sample.agent)
      as (_ & _ & _ & H & _).
    destruct (H Sample.registry) as (_ & _ & _ & Hc & _). exact Hc.
  - destruct (process_query_contract Sample.loads_nothing Sample.dumps Sample.no_index
                (init get_default_settings (Some [])) Sample.agent)
      as (_ & _ & _ & H & _).
    destruct (H Sample.registry) as (_ & _ & _ & _ & _ & _ & Hp).
    destruct (Hp sample_agent_plain) as [response E].
    exact (f_equal returned E).
Defined.

(** A whole query on the sample registry: the search fetches one tool,
    the call of the failing tool adds a second, and the two names are what
    [process_query] reports. *)
Example sample_query :
  (process_query Sample.loads_nothing Sample.dumps Sample.session Sample.agent).1
  = Ret (Sample.dumps (call_error_payload "send_email" "smtp down"),
         ["read_file"; "send_email"]).
Proof. vm_compute. reflexivity. Qed.

(** A query whose agent sends 4301 digits as a tool input: [process_query]
    raises the [ValueError] of [json.loads], after the search has fetched
    its tool. *)
Example sample_query_raises :
  (process_query Sample.loads_numbers Sample.dumps Sample.session
     (Ask (mkRequest "search" "file" PyNone "" "")
          (fun _ => Ask (mkRequest "call" "" PyNone "read_file" (Sample.ones 4301))
                        (fun reply => Answer reply)))).1
  = Raise ValueError
  /\ active_names
       (process_query Sample.loads_numbers Sample.dumps Sample.session
          (Ask (mkRequest "search" "file" PyNone "" "")
               (fun _ => Ask (mkRequest "call" "" PyNone "read_file" (Sample.ones 4301))
                             (fun reply => Answer reply)))).2
     = Some ["read_file"].
Proof. split; vm_compute; reflexivity. Qed.

(** With distinct names in the registry and no index, the active names
    stay distinct through the sample query. *)
Lemma agent_run_distinct_witness :
  active_distinct
    (_invoke_agent_on_query Sample.loads_nothing Sample.dumps Sample.agent
                            Sample.session).2.
Proof.
  apply (agent_run_distinct Sample.loads_nothing Sample.dumps Sample.agent Sample.session).
  - unfold ready. simpl. eauto.
  - apply (absent_index_distinct Sample.session Sample.registry);
      [reflexivity|reflexivity|compute_done].
  - exists []. split; [reflexivity|]. simpl. apply NoDup_nil_2.
Defined.

(** ** Further properties on the sample registry *)

(** The store names a tool the registry has not: what the search returns
    is registered all the same. *)
Lemma search_results_registered_witness :
  Sample.send_email ∈ Sample.registry
  /\ exists u, build_tool_map Sample.registry !! name Sample.send_email = Some u
               /\ name u = name Sample.send_email.
Proof.
  apply (search_results_registered Sample.foreign_session Sample.registry "mail" 5
           Sample.send_email eq_refl eq_refl).
  assert (_search_tools Sample.foreign_session "mail" 5 = [Sample.send_email]) as ->
    by reflexivity.
  apply list_elem_of_here.
Defined.

(** A store that raises leaves the substring search. *)
Lemma store_answer_or_fallback_witness :
  _search_tools Sample.broken_session "file" 5
  = _search_tools (without_store Sample.broken_session) "file" 5.
Proof.
  apply (proj1 (store_answer_or_fallback Sample.broken_session Sample.registry
                  (build_tool_map Sample.registry) Sample.broken_store "file" 5
                  eq_refl ltac:(discriminate) eq_refl eq_refl)).
  reflexivity.
Defined.

(** With no tools a call of any name is answered "not found". *)
Lemma empty_registry_inert_witness :
  (run Sample.loads_nothing Sample.dumps
       (set_up Sample.no_index Sample.session [])
       (mkRequest "call" "" PyNone "read_file" "")).1
  = Ret (Sample.dumps (not_found_payload "read_file")).
Proof.
  apply (proj2 (proj2 (proj2 (empty_registry_inert Sample.loads_nothing Sample.dumps
                         Sample.no_index Sample.session
                         (mkRequest "call" "" PyNone "read_file" ""))))).
  - not_a_search.
  - left. reflexivity.
Defined.

(** A line feed after the query changes nothing. *)
Lemma search_ignores_case_and_padding_witness :
  substring_search Sample.registry (String "010"%char "Read") 5
  = substring_search Sample.registry "Read" 5.
Proof.
  apply (proj1 (proj1 (proj2 (proj2 (search_ignores_case_and_padding
                                       Sample.registry "Read" 5)))
                      "010"%char eq_refl)).
Defined.

(** 70 as [k] gives 50, and 50 as [k] gives 50 again. *)
Lemma clamp_k_idempotent_monotone_witness :
  _clamp_k (PyInt 70) 8 = Ret 50 /\ _clamp_k (PyInt 50) 20 = Ret 50.
Proof.
  split; [reflexivity|].
  apply (proj1 (clamp_k_idempotent_monotone (PyInt 70) 8 20) 50). reflexivity.
Defined.

(** Of two tools named read_file the second one is the one a call gets. *)
Lemma tool_map_last_wins_witness :
  build_tool_map ([Sample.read_file] ++ Sample.read_file_v2 :: []) !! "read_file"
  = Some Sample.read_file_v2.
Proof.
  apply (proj1 (tool_map_last_wins [Sample.read_file] [] Sample.read_file_v2)).
  apply not_elem_of_nil.
Defined.

(** A call of the failing tool writes its line; a call on whose input
    [json.loads] raises writes none. *)
Lemma usage_log_lines_witness :
  tool_log (run Sample.loads_nothing Sample.dumps Sample.session
                (mkRequest "call" "" PyNone "send_email" "")).2
  = Some ["[TOOL] send_email"]
  /\ run Sample.loads_numbers Sample.dumps Sample.session
         (mkRequest "call" "" PyNone "send_email" (Sample.ones 4301))
     = (Raise ValueError, Sample.session).
Proof.
  split.
  - etrans;
      [apply (proj1 (usage_log_lines Sample.loads_nothing Sample.dumps Sample.session
                (build_tool_map Sample.registry) []
                (mkRequest "call" "" PyNone "send_email" "") eq_refl eq_refl))|].
    change (tool_log Sample.session) with (Some (@nil string)). cbv beta iota.
    rewrite decide_False by not_a_search.
    rewrite decide_True by (left; reflexivity).
    reflexivity.
  - apply (proj2 (usage_log_lines Sample.loads_numbers Sample.dumps Sample.session
                (build_tool_map Sample.registry) []
                (mkRequest "call" "" PyNone "send_email" (Sample.ones 4301))
                eq_refl eq_refl)
             ltac:(not_a_search) ltac:(left; reflexivity) Sample.send_email ValueError).
    + vm_compute. reflexivity.
    + vm_compute. reflexivity.
Defined.

(** The same search twice, without a store. *)
Lemma repeated_request_adds_nothing_witness :
  exists names,
    active_names (run Sample.loads_nothing Sample.dumps Sample.session
                      (mkRequest "search" "file" PyNone "" "")).2 = Some names
    /\ run Sample.loads_nothing Sample.dumps
           (run Sample.loads_nothing Sample.dumps Sample.session
                (mkRequest "search" "file" PyNone "" "")).2
           (mkRequest "search" "file" PyNone "" "")
       = (Ret (Sample.dumps (search_payload [] names)),
          (run Sample.loads_nothing Sample.dumps Sample.session
               (mkRequest "search" "file" PyNone "" "")).2).
Proof.
  apply (proj1 (proj2 (proj2 (proj2
           (repeated_request_adds_nothing Sample.loads_nothing Sample.dumps
              Sample.session (mkRequest "search" "file" PyNone "" "")
              ltac:(is_ready)))))
           ltac:(left; apply list_elem_of_here) eq_refl 8 eq_refl).
Defined.

(** The same search twice, with a store that raises at its first call
    and answers at the second: the second search does fetch a tool. *)
Example flaky_store_second_search :
  (run Sample.loads_nothing Sample.dumps Sample.flaky_session
       (mkRequest "search" "file" PyNone "" "")).1
  = Ret (Sample.dumps (search_payload ["read_file"] ["read_file"]))
  /\ (run Sample.loads_nothing Sample.dumps
          (run Sample.loads_nothing Sample.dumps Sample.flaky_session
               (mkRequest "search" "file" PyNone "" "")).2
          (mkRequest "search" "file" PyNone "" "")).1
     = Ret (Sample.dumps (search_payload ["send_email"] ["read_file"; "send_email"]))
  /\ store_queries
       (run Sample.loads_nothing Sample.dumps Sample.flaky_session
            (mkRequest "search" "file" PyNone "" "")).2
     = [("file", 8)].
Proof. repeat split; vm_compute; reflexivity. Qed.

(** The names the sample query reports. *)
Lemma retrieved_names_registered_witness :
  "send_email" ∈ name <$> Sample.registry
  /\ is_Some (build_tool_map Sample.registry !! "send_email").
Proof.
  apply (proj1 (proj1 (retrieved_names_registered Sample.loads_nothing Sample.dumps
                  Sample.no_index (init get_default_settings (Some []))
                  Sample.registry Sample.agent)
                  (Sample.dumps (call_error_payload "send_email" "smtp down"))
                  ["read_file"; "send_email"]
                  (process_query Sample.loads_nothing Sample.dumps
                     (set_up Sample.no_index (init get_default_settings (Some []))
                             Sample.registry) Sample.agent).2
                  ltac:(vm_compute; reflexivity))
           "send_email").
  apply list_elem_of_further, list_elem_of_here.
Defined.

(** The reply to a search on the sample session. *)
Lemma hub_reply_shape_witness :
  exists payload,
    (run Sample.loads_nothing Sample.dumps Sample.session
         (mkRequest "fetch" "mail" PyNone "" "")).1
    = Ret (Sample.dumps payload)
    /\ hub_payload payload.
Proof.
  pose proof (proj1 (hub_reply_shape Sample.loads_nothing Sample.dumps Sample.session
                       (mkRequest "fetch" "mail" PyNone "" "") ltac:(is_ready))) as H.
  destruct H as (payload & H1 & H2 & _).
  exists payload. split; [|exact H2].
  etrans; [|exact (f_equal Ret H1)]. reflexivity.
Defined.

(** A search for "e" with [k] 2 on four tools. *)
Lemma lexical_fetch_bounded_witness :
  exists fetched,
    _handle_search Sample.dumps Sample.session "e" (PyInt 2)
    = (Ret (Sample.dumps (search_payload (name <$> fetched)
                                         (name <$> ([] ++ fetched)%list))),
       set_active_tools (Some ([] ++ fetched)%list) Sample.session)
    /\ Z.of_nat (length fetched) <= 2.
Proof.
  destruct (lexical_fetch_bounded Sample.dumps Sample.session Sample.registry []
              "e" (PyInt 2) 2 eq_refl eq_refl eq_refl eq_refl)
    as (fetched & H1 & [H2 _] & _).
  exists fetched. split; [exact H1|exact H2].
Defined.

(** The index of the sample registry: the names the honest store can give
    back all resolve. *)
Lemma index_documents_witness :
  length (resolve (build_tool_map Sample.registry)
                  [Some "read_file"; Some "web_search"])
  = 2%nat.
Proof.
  apply (proj1 (proj2 (proj2 (proj2 (proj2
           (index_documents Sample.backend None get_default_index_settings
                            Sample.registry)))))
           [Some "read_file"; Some "web_search"]).
  repeat constructor.
  - exists (document_of Sample.read_file). split; [|reflexivity].
    apply list_elem_of_further, list_elem_of_here.
  - exists (document_of Sample.web_search). split; [|reflexivity].
    apply list_elem_of_here.
Defined.

Lemma stale_store_steady : steady_store Sample.stale_session.
Proof. unfold steady_store. simpl. done. Qed.

(** The sample query on a session that an earlier query has left with two
    active tools and a line in its log; and the sample query asked a second
    time, after itself, on the session with the stale store: the first
    query has left three active tools and one call served by the store,
    and the second one gets the same answer and the same names. *)
Lemma queries_are_independent_witness :
  (process_query Sample.loads_nothing Sample.dumps Sample.used_session
                 Sample.agent).1
  = (process_query Sample.loads_nothing Sample.dumps Sample.session Sample.agent).1
  /\ active_names
    (process_query Sample.loads_nothing Sample.dumps Sample.stale_session
                   Sample.agent).2
  = Some ["read_file"; "read_file"; "send_email"]
  /\ store_queries
       (process_query Sample.loads_nothing Sample.dumps Sample.stale_session
                      Sample.agent).2
     = [("file", 8)]
  /\ (process_query Sample.loads_nothing Sample.dumps
        (process_query Sample.loads_nothing Sample.dumps Sample.stale_session
                       Sample.agent).2
        Sample.agent).1
     = (process_query Sample.loads_nothing Sample.dumps Sample.stale_session
                      Sample.agent).1.
Proof.
  split.
  { apply (proj1 (queries_are_independent Sample.loads_nothing Sample.dumps
                    Sample.session Sample.agent
                    (absent_store_steady Sample.session eq_refl))
             Sample.used_session).
    repeat split. }
  split; [vm_compute; reflexivity|]. split; [vm_compute; reflexivity|].
  apply (proj2 (queries_are_independent Sample.loads_nothing Sample.dumps
                  Sample.stale_session Sample.agent stale_store_steady)
           Sample.agent).
Defined.

(** With the store that raises at its first call the second query does
    not get what the first one got. *)
Example flaky_store_queries_differ :
  (process_query Sample.loads_nothing Sample.dumps Sample.flaky_session
                 Sample.agent).1
  = Ret (Sample.dumps (call_error_payload "send_email" "smtp down"),
         ["read_file"; "send_email"])
  /\ (process_query Sample.loads_nothing Sample.dumps
        (process_query Sample.loads_nothing Sample.dumps Sample.flaky_session
                       Sample.agent).2
        Sample.agent).1
     = Ret (Sample.dumps (call_error_payload "send_email" "smtp down"),
            ["send_email"]).
Proof. split; vm_compute; reflexivity. Qed.

(** A search on a session that was torn down. *)
Lemma hub_after_tear_down_witness :
  run Sample.loads_nothing Sample.dumps (tear_down Sample.session)
      (mkRequest "search" "file" PyNone "" "")
  = (Raise TypeError, tear_down Sample.session).
Proof.
  apply (proj1 (proj2 (proj2 (hub_after_tear_down Sample.loads_nothing Sample.dumps
                                Sample.session
                                (mkRequest "search" "file" PyNone "" ""))))).
  - left. apply list_elem_of_here.
  - discriminate.
Defined.

(** read_file is fetched by a search for "file" and called at once. *)
Lemma fetched_tools_are_callable_witness :
  exists tool,
    build_tool_map Sample.registry !! "read_file" = Some tool
    /\ name tool = "read_file"
    /\ (_handle_call Sample.loads_nothing Sample.dumps
          (_handle_search Sample.dumps Sample.session "file" PyNone).2
          "read_file" "").1
       = Ret (Sample.dumps (call_result_payload "read_file" "0123456789")).
Proof.
  destruct (fetched_tools_are_callable Sample.loads_nothing Sample.dumps
              Sample.session Sample.registry [] "file" PyNone 8 "read_file" ""
              eq_refl eq_refl eq_refl eq_refl)
    as (tool & H1 & H2 & H3 & _).
  - assert (name <$> fresh_tools (name <$> [])
                       (_search_tools Sample.session "file" 8)
            = ["read_file"]) as -> by reflexivity.
    apply list_elem_of_here.
  - exists tool. split; [exact H1|]. split; [exact H2|].
    rewrite (H3 (InRaw "") eq_refl).
    assert (tool = Sample.read_file) as ->.
    { assert (build_tool_map Sample.registry !! "read_file" = Some Sample.read_file)
        as E by (vm_compute; reflexivity).
      rewrite E in H1. by injection H1. }
    reflexivity.
Defined.

(** With [max_result_chars] -3 a result of ten characters keeps seven. *)
Lemma negative_max_chars_drops_tail_witness :
  exists field,
    (_handle_call Sample.loads_nothing Sample.dumps Sample.negative_session
                  "read_file" "").1
    = Ret (Sample.dumps (call_result_payload "read_file" field))
    /\ Z.of_nat (String.length field) = 7.
Proof.
  destruct (negative_max_chars_drops_tail Sample.loads_nothing Sample.dumps
              Sample.negative_session (build_tool_map Sample.registry)
              Sample.read_file [] "read_file" "" (InRaw "") (ResOther "0123456789")
              (-3)
              eq_refl ltac:(vm_compute; reflexivity) eq_refl eq_refl eq_refl eq_refl
              ltac:(lia))
    as (field & H1 & H2 & _).
  exists field. split; [exact H1|exact H2].
Defined.

(** The same query on the sample registry with the built index and
    without any: the honest store answers with the first documents. *)
Example sample_index_session :
  set_up (fun _ => _build_vector_index Sample.backend None get_default_index_settings)
         (init get_default_settings None) Sample.registry
  = Sample.session_of get_default_settings None
      (Some (Sample.honest_store (document_of <$> Sample.registry))) Sample.registry
  /\ set_up (fun _ => _build_vector_index Sample.offline_backend None
                        get_default_index_settings)
            (init get_default_settings None) Sample.registry
     = Sample.session_of get_default_settings None None Sample.registry.
Proof. split; reflexivity. Qed.
